(** * The translation client: validation, throttling, retry and response
    classification

    Shallow embedding of [TranslationAPIClient] from
    [Assignment_18/Task_4/translation_api.py].  Methods keep their Python
    names.  Stateful methods run in a small state-and-exception monad over
    the clock, the rate-limit timestamp and a trace of the calls to
    [time.sleep], [session.post] and [print]. *)

From Stdlib Require Import ZArith QArith Qpower Lia Lqa Ascii String DecimalString.
From stdpp Require Import gmap strings list fin_maps sorting.
Set Warnings "-register-all".

(** ** Python strings

    A [str] is modelled by a Rocq [string], one character per code point;
    the model covers the code points below 256.  [isspace] and [lower] are
    Python's on that range. *)

Module Py.

Definition ord (c : ascii) : N := N_of_ascii c.

(** [str.isspace] on one character: TAB..CR, FS..US, SPACE, NEL, NBSP. *)
Definition isspace (c : ascii) : bool :=
  let n := ord c in
  ((9 <=? n) && (n <=? 13) || (28 <=? n) && (n <=? 32)
   || (n =? 133) || (n =? 160))%N.

(** [str.lower] on one character: A..Z and the Latin-1 capitals
    (all of 192..222 but the multiplication sign 215) move up by 32. *)
Definition lower_char (c : ascii) : ascii :=
  let n := ord c in
  if ((65 <=? n) && (n <=? 90)
      || (192 <=? n) && (n <=? 222) && negb (n =? 215))%N
  then ascii_of_N (n + 32) else c.

Fixpoint lower (s : string) : string :=
  match s with
  | EmptyString => EmptyString
  | String c s' => String (lower_char c) (lower s')
  end.

Fixpoint lstrip (s : string) : string :=
  match s with
  | EmptyString => EmptyString
  | String c s' => if isspace c then lstrip s' else s
  end.

Fixpoint rstrip (s : string) : string :=
  match s with
  | EmptyString => EmptyString
  | String c s' =>
      match rstrip s' with
      | EmptyString => if isspace c then EmptyString else String c EmptyString
      | r => String c r
      end
  end.

(** [s.strip()] *)
Definition strip (s : string) : string := rstrip (lstrip s).

(** [len(s)] *)
Definition len (s : string) : Z := Z.of_nat (String.length s).

(** [pat in s] *)
Fixpoint contains (pat s : string) : bool :=
  String.prefix pat s ||
  match s with
  | EmptyString => false
  | String _ s' => contains pat s'
  end.

(** [sep.join(l)] *)
Fixpoint join (sep : string) (l : list string) : string :=
  match l with
  | [] => ""
  | [x] => x
  | x :: l' => x +:+ sep +:+ join sep l'
  end.

(** [s[:n]] for [n >= 0] *)
Definition slice_to (n : nat) (s : string) : string := String.substring 0 n s.

(** [sorted(l)] on strings: code-point lexicographic order. *)
Definition sorted (l : list string) : list string := merge_sort String.le l.

(** [str(n)] for an integer. *)
Definition str_of_int (z : Z) : string := NilZero.string_of_int (Z.to_int z).

(** [s * n]: [n] copies of [s]. *)
Fixpoint repeat (s : string) (n : nat) : string :=
  match n with
  | O => ""
  | S n' => s +:+ repeat s n'
  end.

End Py.

(** ** Python values, as [json] decodes them and as result dictionaries
    hold them.  [PyIsoTime t] stands for the text
    [datetime.now().isoformat()] taken at clock reading [t]. *)

Inductive pyval :=
| PyNone
| PyBool (b : bool)
| PyInt (z : Z)
| PyFloat (q : Q)
| PyStr (s : string)
| PyIsoTime (t : Q)
| PyList (l : list pyval)
| PyDict (d : gmap string pyval).

(** [type(v).__name__] *)
Definition type_name (v : pyval) : string :=
  match v with
  | PyNone => "NoneType"
  | PyBool _ => "bool"
  | PyInt _ => "int"
  | PyFloat _ => "float"
  | PyStr _ | PyIsoTime _ => "str"
  | PyList _ => "list"
  | PyDict _ => "dict"
  end.

(** ** Module constants *)

Definition SUPPORTED_LANGUAGES : gmap string string :=
  list_to_map
    [ ("auto", "Auto-detect");
      ("ar", "Arabic");
      ("bn", "Bengali");
      ("cs", "Czech");
      ("cy", "Welsh");
      ("da", "Danish");
      ("de", "German");
      ("el", "Greek");
      ("en", "English");
      ("es", "Spanish");
      ("fa", "Farsi");
      ("fi", "Finnish");
      ("fr", "French");
      ("gu", "Gujarati");
      ("he", "Hebrew");
      ("hi", "Hindi");
      ("hu", "Hungarian");
      ("id", "Indonesian");
      ("it", "Italian");
      ("ja", "Japanese");
      ("kn", "Kannada");
      ("ko", "Korean");
      ("lt", "Lithuanian");
      ("lv", "Latvian");
      ("mk", "Macedonian");
      ("ml", "Malayalam");
      ("mr", "Marathi");
      ("ne", "Nepali");
      ("nl", "Dutch");
      ("pa", "Punjabi");
      ("pl", "Polish");
      ("pt", "Portuguese");
      ("ro", "Romanian");
      ("ru", "Russian");
      ("sk", "Slovak");
      ("sl", "Slovenian");
      ("sv", "Swedish");
      ("ta", "Tamil");
      ("te", "Telugu");
      ("tr", "Turkish");
      ("uk", "Ukrainian");
      ("vi", "Vietnamese");
      ("zh", "Chinese") ].

Inductive RetryStrategy := EXPONENTIAL | LINEAR | IMMEDIATE.

(** ** Exceptions

    The module imports [Timeout], [ConnectionError] and [RequestException]
    from [requests.exceptions]; its [ConnectionError] is therefore the
    [requests] class, not the builtin one.  [TimeoutError], [ValueError],
    [AttributeError] and [TypeError] are builtins. *)

Inductive requests_class :=
| RequestException | Timeout | ConnectTimeout | ReadTimeout
| ConnectionError | HTTPError.

Inductive exc_class :=
| TimeoutError | ValueError | AttributeError | TypeError | JSONDecodeError
| Requests (c : requests_class).

Coercion Requests : requests_class >-> exc_class.

Global Instance requests_class_eq_dec : EqDecision requests_class.
Proof. solve_decision. Defined.
Global Instance exc_class_eq_dec : EqDecision exc_class.
Proof. solve_decision. Defined.

(** Direct base classes, within the classes above. *)
Definition bases (c : exc_class) : list exc_class :=
  match c with
  | Requests Timeout | Requests ConnectionError | Requests HTTPError =>
      [Requests RequestException]
  | Requests ConnectTimeout => [Requests ConnectionError; Requests Timeout]
  | Requests ReadTimeout => [Requests Timeout]
  | _ => []
  end.

(** [issubclass(c, d)]; the hierarchy above is two levels deep. *)
Definition issubclass (c d : exc_class) : bool :=
  bool_decide (c = d)
  || existsb (fun b => bool_decide (b = d)
                       || existsb (fun b' => bool_decide (b' = d)) (bases b))
             (bases c).

(** The failure taxonomy of the design.  A raise site of the source is
    labelled with the entry it stands for; control flow never reads the
    label, it dispatches on the Python class. *)
Module Failure.
Inductive kind :=
| Validation | Timeout | ConnectionFailure | RateLimited
| MalformedResponse | UnsupportedLanguage | ProtocolError.

Global Instance kind_eq_dec : EqDecision kind.
Proof. solve_decision. Defined.
End Failure.

(** An exception object: its class, [str(e)], the exception that was being
    handled when it was raised ([__context__], as class and text), and the
    taxonomy label of its raise site. *)
Record exn := Exn {
  exn_class : exc_class;
  exn_str : string;
  exn_context : option (exc_class * string);
  exn_kind : option Failure.kind
}.

(** [isinstance(e, (c1, ..., cn))] *)
Definition isinstance (e : exn) (cs : list exc_class) : bool :=
  existsb (issubclass (exn_class e)) cs.

(** ** The transport

    [session.post(...)] followed by [response.raise_for_status()] either
    raises an exception of the [requests] hierarchy or yields a response,
    whose [.json()] either raises [JSONDecodeError] or yields a value. *)

Record request := Request {
  req_q : string;
  req_source : string;
  req_target : string
}.

Inductive body :=
| JsonError (msg : string)
| JsonValue (v : pyval).

Inductive post_outcome :=
| PostRaises (c : requests_class) (msg : string)
| PostResponse (b : body).

(** What the network does with the [n]-th request of the session: how long
    the call takes and how it ends. *)
Record reply := Reply { latency : Q; outcome : post_outcome }.

Definition network := nat → request → reply.

(** ** The client object

    [max_retries], [use_mock] and [session] are set by [__init__]; the
    capitalised fields are the class attributes, read through [self]. *)
Record client := Client {
  max_retries : Z;
  use_mock : bool;
  session : network;
  TIMEOUT : Z;
  RETRY_DELAY : Q;
  RETRY_STRATEGY : RetryStrategy;
  REQUEST_TIMEOUT : Q
}.

Definition FREE_API_URL : string := "https://libretranslate.de/translate".
Definition MAX_RETRIES : Z := 3.

(** [TranslationAPIClient(max_retries, use_mock)] over network [net]. *)
Definition __init__ (net : network) (max_retries : Z) (use_mock : bool) : client :=
  {| max_retries := max_retries;
     use_mock := use_mock;
     session := net;
     TIMEOUT := 15;
     RETRY_DELAY := 1%Q;
     RETRY_STRATEGY := EXPONENTIAL;
     REQUEST_TIMEOUT := (1 # 2)%Q |}.

(** ** State, trace and monad *)

Inductive caller := By_rate_limit | By_translate.

Inductive event :=
| Slept (who : caller) (d : Q)
| Posted (t : Q) (r : request)
| Printed (attempt : Z) (delay : Q).

(** The mutable attribute [self.last_request_time], the wall clock, the
    number of requests sent so far and the trace, oldest event first. *)
Record state := State {
  last_request_time : Q;
  now : Q;
  sent : nat;
  trace : list event
}.

(** [__init__] sets [last_request_time] to 0. *)
Definition fresh (clock : Q) : state :=
  {| last_request_time := 0%Q; now := clock; sent := 0; trace := [] |}.

Inductive result (A : Type) :=
| Return (a : A)
| Raise (e : exn).
Arguments Return {A} a.
Arguments Raise {A} e.

Definition M (A : Type) : Type := state → result A * state.

Global Instance M_ret : MRet M := λ A a s, (Return a, s).
Global Instance M_bind : MBind M := λ A B f m s,
  match m s with
  | (Return a, s') => f a s'
  | (Raise e, s') => (Raise e, s')
  end.

Definition raise {A} (e : exn) : M A := λ s, (Raise e, s).

(** [try: m  except ... as e: h e] *)
Definition try_except {A} (m : M A) (h : exn → M A) : M A := λ s,
  match m s with
  | (Return a, s') => (Return a, s')
  | (Raise e, s') => h e s'
  end.

Definition get_last_request_time : M Q := λ s, (Return (last_request_time s), s).

Definition set_last_request_time (t : Q) : M unit := λ s,
  (Return (), {| last_request_time := t; now := now s;
                 sent := sent s; trace := trace s |}).

Definition log (ev : event) : M unit := λ s,
  (Return (), {| last_request_time := last_request_time s; now := now s;
                 sent := sent s; trace := trace s ++ [ev] |}).

(** [time.time()], also the clock behind [datetime.now()]. *)
Definition time_time : M Q := λ s, (Return (now s), s).

(** [time.sleep(d)]: a negative length raises [ValueError]; otherwise the
    clock moves on by [d]. *)
Definition time_sleep (who : caller) (d : Q) : M unit := λ s,
  if Qlt_le_dec d 0 then
    (Raise (Exn ValueError "sleep length must be non-negative" None None), s)
  else
    (Return (), {| last_request_time := last_request_time s;
                   now := (now s + d)%Q; sent := sent s;
                   trace := trace s ++ [Slept who d] |}).

(** [self.session.post(url, json=payload, timeout=...)] and
    [raise_for_status()]: the request is sent at the current clock reading
    and the call returns after the reply's latency. *)
Definition session_post (self : client) (r : request) : M post_outcome := λ s,
  let a := session self (sent s) r in
  (Return (outcome a),
   {| last_request_time := last_request_time s;
      now := (now s + latency a)%Q; sent := S (sent s);
      trace := trace s ++ [Posted (now s) r] |}).

(** ** Methods *)

Definition _rate_limit (self : client) : M unit :=
  current_time ← time_time;
  last ← get_last_request_time;
  let elapsed := (current_time - last)%Q in
  (if Qlt_le_dec elapsed (REQUEST_TIMEOUT self)
   then time_sleep By_rate_limit (REQUEST_TIMEOUT self - elapsed)%Q
   else mret ());;
  t ← time_time;
  set_last_request_time t.

(** [attempt] is any Python [int]; [2 ** attempt] is a fraction when it is
    negative, which [Qpower] follows. *)
Definition _calculate_retry_delay (self : client) (attempt : Z) : Q :=
  match RETRY_STRATEGY self with
  | EXPONENTIAL => (RETRY_DELAY self * (2 ^ attempt))%Q
  | LINEAR => (RETRY_DELAY self * inject_Z (attempt + 1))%Q
  | IMMEDIATE => 0%Q
  end.

Definition validate_input (text target_language : string) : bool * option string :=
  if bool_decide (text = "") || bool_decide (Py.strip text = "") then
    (false, Some "Text cannot be empty. Please provide text to translate.")
  else if (5000 <? Py.len (Py.strip text))%Z then
    (false, Some "Text too long. Maximum 5000 characters allowed.")
  else if bool_decide (target_language = "")
          || bool_decide (Py.strip target_language = "") then
    (false, Some "Target language code cannot be empty.")
  else
    let lang_code := Py.strip (Py.lower target_language) in
    match SUPPORTED_LANGUAGES !! lang_code with
    | None =>
        let available :=
          Py.join ", " (Py.sorted (map_to_list SUPPORTED_LANGUAGES).*1) in
        (false, Some ("Invalid language code: '" +:+ target_language +:+ "'. "
                      +:+ "Supported codes: " +:+ Py.slice_to 100 available
                      +:+ "..."))
    | Some _ => (true, None)
    end.

(** The table of [_fetch_mock_translation].  Its values are copied byte for
    byte from the source file; nothing in the client inspects them. *)
Definition mock_translations : gmap (string * string) string :=
  list_to_map
    [ (("hello world", "es"), "Hola mundo");
      (("hello world", "fr"), "Bonjour le monde");
      (("hello world", "de"), "Hallo Welt");
      (("hello world", "ja"), "„Åì„Çì„Å´„Å°„ÅØ‰∏ñÁïå");
      (("hello world", "zh"), "‰Ω†Â•Ω‰∏ñÁïå");
      (("hello world", "ru"), "–ü—Ä–∏–≤–µ—Ç –º–∏—Ä");
      (("good morning", "es"), "Buenos d√≠as");
      (("good morning", "fr"), "Bonjour");
      (("good morning", "de"), "Guten Morgen");
      (("good morning", "ja"), "„Åä„ÅØ„Çà„ÅÜ„Åî„Åñ„ÅÑ„Åæ„Åô");
      (("how are you", "de"), "Wie geht es dir?");
      (("how are you", "es"), "¬øC√≥mo est√°s?");
      (("how are you", "fr"), "Comment allez-vous?");
      (("how are you", "ja"), "„ÅäÂÖÉÊ∞ó„Åß„Åô„ÅãÔºü");
      (("thank you", "fr"), "Merci");
      (("thank you", "es"), "Gracias");
      (("thank you", "de"), "Danke");
      (("thank you", "ja"), "„ÅÇ„Çä„Åå„Å®„ÅÜ„Åî„Åñ„ÅÑ„Åæ„Åô");
      (("goodbye", "ja"), "„Åï„Çà„ÅÜ„Å™„Çâ");
      (("goodbye", "es"), "Adi√≥s");
      (("goodbye", "fr"), "Au revoir") ].

Definition _fetch_mock_translation (self : client) (text target_language : string)
  : M (gmap string pyval) :=
  let key := (Py.lower text, Py.lower target_language) in
  let translated :=
    match mock_translations !! key with
    | Some t => t
    | None =>
        "[" +:+ default "Unknown" (SUPPORTED_LANGUAGES !! Py.lower target_language)
        +:+ " translation of '" +:+ text +:+ "']"
    end in
  t ← time_time;
  mret (<["translatedText" := PyStr translated]>
        (<["detectedLanguage" :=
             PyDict (<["language" := PyStr "en"]>
                     (<["confidence" := PyFloat (95 # 100)]> ∅))]>
        (<["timestamp" := PyIsoTime t]>
        (<["is_mock" := PyBool true]> ∅)))).

(** Lines 268-293 of [_fetch_real_translation]: the checks on the decoded
    response, which have no effect on the state.  An [error] value that is
    not a [str] has no [lower] method. *)
Definition check_response (data : pyval) : result (gmap string pyval) :=
  match data with
  | PyDict d =>
      match d !! "error" with
      | Some (PyStr error_msg) =>
          if Py.contains "quota" (Py.lower error_msg)
             || Py.contains "limit" (Py.lower error_msg) then
            Raise (Exn ConnectionError
                     ("API quota exceeded: " +:+ error_msg +:+ ". "
                      +:+ "Please try again later.")
                     None (Some Failure.RateLimited))
          else if Py.contains "language" (Py.lower error_msg) then
            Raise (Exn ValueError ("Invalid language code. " +:+ error_msg)
                     None (Some Failure.UnsupportedLanguage))
          else
            Raise (Exn ConnectionError ("API Error: " +:+ error_msg)
                     None (Some Failure.ProtocolError))
      | Some v =>
          Raise (Exn AttributeError
                   ("'" +:+ type_name v +:+ "' object has no attribute 'lower'")
                   None None)
      | None =>
          match d !! "translatedText" with
          | None =>
              Raise (Exn ValueError
                       "Malformed API response: Missing 'translatedText' field."
                       None (Some Failure.MalformedResponse))
          | Some _ => Return d
          end
      end
  | _ =>
      Raise (Exn ValueError "Malformed API response: Expected JSON object."
               None (Some Failure.MalformedResponse))
  end.

Definition lift {A} (r : result A) : M A := λ s, (r, s).

Definition _fetch_real_translation (self : client) (text target_language : string)
  : M (gmap string pyval) :=
  _rate_limit self;;
  let payload := {| req_q := text; req_source := "auto";
                    req_target := Py.lower target_language |} in
  response ← session_post self payload;
  match response with
  | PostRaises c msg =>
      let handled := Some (Requests c, msg) in
      if issubclass c Timeout then
        raise (Exn TimeoutError
                 ("Request timed out after " +:+ Py.str_of_int (TIMEOUT self)
                  +:+ " seconds. " +:+ "The translation API is not responding.")
                 handled (Some Failure.Timeout))
      else if issubclass c ConnectionError then
        raise (Exn ConnectionError
                 ("Failed to connect to the translation API. "
                  +:+ "Please check your internet connection.")
                 handled (Some Failure.ConnectionFailure))
      else if issubclass c RequestException then
        raise (Exn RequestException ("API request failed: " +:+ msg)
                 handled (Some Failure.ProtocolError))
      else raise (Exn c msg None None)
  | PostResponse (JsonError msg) =>
      raise (Exn ValueError
               "Malformed API response: Invalid JSON returned by the server."
               (Some (JSONDecodeError, msg)) (Some Failure.MalformedResponse))
  | PostResponse (JsonValue data) =>
      d ← lift (check_response data);
      t ← time_time;
      mret (<["is_mock" := PyBool false]> (<["timestamp" := PyIsoTime t]> d))
  end.

(** [raise last_error] after the loop; raising [None] is a [TypeError]. *)
Definition raise_value {A} (last_error : option exn) : M A :=
  match last_error with
  | Some e => raise e
  | None => raise (Exn TypeError "exceptions must derive from BaseException"
                     None None)
  end.

(** One transport call, by the [use_mock] flag. *)
Definition fetch (self : client) (text target_language : string)
  : M (gmap string pyval) :=
  if use_mock self then _fetch_mock_translation self text target_language
  else _fetch_real_translation self text target_language.

(** The [for attempt in range(self.max_retries)] loop of [translate], with
    [todo] iterations left, and the statement after it. *)
Fixpoint attempts (self : client) (text target_language : string)
    (todo : nat) (attempt : Z) (last_error : option exn)
  : M (gmap string pyval) :=
  match todo with
  | O => raise_value last_error
  | S todo' =>
      try_except
        (result ← fetch self text target_language;
         mret (<["attempts" := PyInt (attempt + 1)]> result))
        (λ e,
           if isinstance e [TimeoutError; Requests ConnectionError] then
             if (attempt <? max_retries self - 1)%Z then
               let delay := _calculate_retry_delay self attempt in
               log (Printed (attempt + 1) delay);;
               time_sleep By_translate delay;;
               attempts self text target_language todo' (attempt + 1)%Z (Some e)
             else raise e
           else if isinstance e [ValueError; Requests RequestException] then
             raise e
           else raise e)
  end.

Definition translate (self : client) (text target_language : string)
  : M (gmap string pyval) :=
  let '(is_valid, error_msg) := validate_input text target_language in
  if negb is_valid then
    raise (Exn ValueError (default "None" error_msg) None
             (Some Failure.Validation))
  else
    attempts self text target_language (Z.to_nat (max_retries self)) 0%Z None.

(** ** Notions the properties are stated with *)

(** The failure [translate] raises when [validate_input] says no. *)
Definition validation_failure (text target_language : string) : exn :=
  Exn ValueError (default "None" (validate_input text target_language).2) None
    (Some Failure.Validation).

(** Whether a result is a value. *)
Definition returned {A} (r : result A) : bool :=
  match r with Return _ => true | Raise _ => false end.

(** The exception of a result, if it is one. *)
Definition failure {A} (r : result A) : option exn :=
  match r with Return _ => None | Raise e => Some e end.

(** The state [_rate_limit] leaves behind. *)
Definition throttle (self : client) (s : state) : state := (_rate_limit self s).2.

(** The JSON body [_fetch_real_translation] sends. *)
Definition payload_of (text target_language : string) : request :=
  {| req_q := text; req_source := "auto"; req_target := Py.lower target_language |}.

(** The state after the rate limiter and the request of one live call. *)
Definition posted (self : client) (text target_language : string) (s : state) : state :=
  let s1 := throttle self s in
  let a := session self (sent s1) (payload_of text target_language) in
  {| last_request_time := last_request_time s1;
     now := (now s1 + latency a)%Q;
     sent := S (sent s1);
     trace := trace s1 ++ [Posted (now s1) (payload_of text target_language)] |}.

(** The class and taxonomy label of every exception a live call can raise. *)
Definition live_failures : list (exc_class * option Failure.kind) :=
  [ (TimeoutError, Some Failure.Timeout);
    (Requests ConnectionError, Some Failure.ConnectionFailure);
    (Requests RequestException, Some Failure.ProtocolError);
    (ValueError, Some Failure.MalformedResponse);
    (Requests ConnectionError, Some Failure.RateLimited);
    (ValueError, Some Failure.UnsupportedLanguage);
    (Requests ConnectionError, Some Failure.ProtocolError);
    (AttributeError, None) ].

(** The state after the notice and the pause that precede a retry. *)
Definition backed_off (self : client) (attempt : Z) (s : state) : state :=
  let delay := _calculate_retry_delay self attempt in
  {| last_request_time := last_request_time s;
     now := (now s + delay)%Q;
     sent := sent s;
     trace := (trace s ++ [Printed (attempt + 1) delay]) ++ [Slept By_translate delay] |}.

(** The clock readings at which the requests of a trace were sent. *)
Definition post_times (tr : list event) : list Q :=
  omap (λ ev, match ev with Posted t _ => Some t | _ => None end) tr.

(** Any two entries of [l], in order, are at least [gap] apart. *)
Definition spaced (gap : Q) (l : list Q) : Prop :=
  ∀ i j t t', i < j → l !! i = Some t → l !! j = Some t' → (t + gap <= t')%Q.

(** The invariant of the client: the requests sent so far are spaced by
    [REQUEST_TIMEOUT], and none was sent after [last_request_time]. *)
Definition throttled (self : client) (s : state) : Prop :=
  spaced (REQUEST_TIMEOUT self) (post_times (trace s))
  ∧ Forall (λ t, (t <= last_request_time s)%Q) (post_times (trace s)).

(** The outline of a run: its requests and its back-off pauses, in order. *)
Inductive mark := Attempt | Wait (d : Q).

Definition outline (tr : list event) : list mark :=
  omap (λ ev, match ev with
              | Posted _ _ => Some Attempt
              | Slept By_translate d => Some (Wait d)
              | _ => None
              end) tr.

(** A reply that ends in a [requests] timeout. *)
Definition times_out (a : reply) : Prop :=
  ∃ c msg, outcome a = PostRaises c msg ∧ issubclass c Timeout = true.

(** ** Networks used in the examples *)

(** A provider that answers every request with a translation that repeats
    the request text. *)
Definition echo : network := λ _ r,
  Reply (1 # 10) (PostResponse (JsonValue (PyDict (<["translatedText" := PyStr (req_q r)]> ∅)))).

(** Every request ends in a read timeout. *)
Definition unreachable : network := λ n _,
  Reply (1 # 10) (PostRaises ReadTimeout ("read timed out, request " +:+ Py.str_of_int (Z.of_nat n))).

(** Every request is answered with an HTTP error status. *)
Definition failing_http : network := λ _ _,
  Reply (1 # 10) (PostRaises HTTPError "500 Server Error").


(** The value of a result, if it is one. *)
Definition value {A} (r : result A) : option A :=
  match r with Return a => Some a | Raise _ => None end.

(** ** Further notions: schedules of a run and the language listing *)

(** A reply that ends in a transport failure [translate] retries: a
    [requests] timeout or connection error. *)
Definition fails_retryably (a : reply) : Prop :=
  ∃ c msg, outcome a = PostRaises c msg
           ∧ (issubclass c Timeout = true ∨ issubclass c ConnectionError = true).

(** The outline of [todo] attempts that all fail retryably, the first of
    them numbered [attempt]: a pause follows every attempt but the last. *)
Fixpoint schedule (self : client) (attempt : Z) (todo : nat) : list mark :=
  match todo with
  | O => []
  | S O => [Attempt]
  | S todo' =>
      Attempt :: Wait (_calculate_retry_delay self attempt)
      :: schedule self (attempt + 1) todo'
  end.

(** The pauses of an outline, added up. *)
Fixpoint paused (l : list mark) : Q :=
  match l with
  | [] => 0%Q
  | Attempt :: l' => paused l'
  | Wait d :: l' => (d + paused l')%Q
  end.

(** The string is empty or starts with a character that is not blank. *)
Definition starts_clean (s : string) : Prop :=
  match s with
  | EmptyString => True
  | String c _ => Py.isspace c = false
  end.

(** The line feed. *)
Definition newline : string := String (ascii_of_nat 10) "".

(** [f"{s:n}"] for a [str]: spaces are added on the right up to width [n]. *)
Definition format_left (n : nat) (s : string) : string :=
  s +:+ Py.repeat " " (n - String.length s).

(** [f"{s:^n}"] for a [str]: of the missing width, half (rounded down) goes
    to the left and the rest to the right. *)
Definition format_center (n : nat) (s : string) : string :=
  let pad := n - String.length s in
  Py.repeat " " (pad `div` 2) +:+ s +:+ Py.repeat " " (pad - pad `div` 2).

(** The order of [sorted] on pairs of strings. *)
Definition item_le (p q : string * string) : Prop :=
  if decide (p.1 = q.1) then String.le p.2 q.2 else String.le p.1 q.1.

Global Instance item_le_dec : RelDecision item_le.
Proof. intros p q. unfold item_le. destruct (decide (p.1 = q.1)); apply _. Defined.

(** [sorted(m.items())] *)
Definition sorted_items (m : gmap string string) : list (string * string) :=
  merge_sort item_le (map_to_list m).

(** The body of [get_available_languages] from the sorted items on.  The
    arrow between code and name is a literal whose characters lie outside
    the modelled range of code points; it is the parameter [arrow].
    [languages[i]] and [languages[mid_point + i]] are read where the source
    reads them; both are in range there. *)
Definition listing (arrow : string) (items : list (string * string)) : string :=
  let output :=
    newline +:+ Py.repeat "=" 75 +:+ newline
    +:+ format_center 75 "SUPPORTED LANGUAGES" +:+ newline
    +:+ Py.repeat "=" 75 +:+ newline in
  let languages :=
    map (λ item : string * string,
           format_left 8 item.1 +:+ " " +:+ arrow +:+ " " +:+ item.2) items in
  let mid_point := length languages `div` 2 in
  let output :=
    foldl (λ output i,
             let left := default "" (languages !! i) in
             let right :=
               if decide (mid_point + i < length languages)
               then default "" (languages !! (mid_point + i)) else "" in
             output +:+ format_left 40 left +:+ " " +:+ right +:+ newline)
          output (seq 0 mid_point) in
  output +:+ Py.repeat "=" 75 +:+ newline.

Definition get_available_languages (arrow : string) : string :=
  listing arrow (sorted_items SUPPORTED_LANGUAGES).

(** A provider that refuses the first two connections and answers from the
    third request on. *)
Definition flaky : network := λ n r,
  if decide (n < 2)
  then Reply (1 # 10) (PostRaises ConnectionError "connection refused")
  else Reply (1 # 10)
         (PostResponse (JsonValue (PyDict
            (<["translatedText" := PyStr (req_q r)]>
             (<["attempts" := PyInt 99]> ∅))))).

(** * Properties *)

(** ** Strings *)

Section strings.
  Import Py.

Lemma isspace_lower_char c : isspace (lower_char c) = isspace c.
Proof. by destruct c as [[] [] [] [] [] [] [] []]. Qed.

Lemma lstrip_lower s : lstrip (lower s) = lower (lstrip s).
Proof.
  induction s as [|c s IH]; [done|].
  simpl. rewrite isspace_lower_char. by destruct (isspace c).
Qed.

Lemma rstrip_lower s : rstrip (lower s) = lower (rstrip s).
Proof.
  induction s as [|c s IH]; [done|].
  simpl. rewrite IH, isspace_lower_char.
  destruct (rstrip s); simpl; by destruct (isspace c).
Qed.

Lemma strip_lower s : strip (lower s) = lower (strip s).
Proof. unfold strip. by rewrite lstrip_lower, rstrip_lower. Qed.

Lemma strip_lower_empty s : strip s = "" → strip (lower s) = "".
Proof. intros H. by rewrite strip_lower, H. Qed.
End strings.

Lemma supported_nonempty : SUPPORTED_LANGUAGES !! "" = None.
Proof. reflexivity. Qed.

(** ** Input validation *)

Lemma validate_input_accepts text target_language :
  (validate_input text target_language).1 = true ↔
  Py.strip text ≠ "" ∧ (Py.len (Py.strip text) ≤ 5000)%Z
  ∧ is_Some (SUPPORTED_LANGUAGES !! Py.strip (Py.lower target_language)).
Proof.
  unfold validate_input.
  destruct (decide (Py.strip text = "")) as [Hblank|Htext].
  { rewrite (bool_decide_eq_true_2 _ Hblank), orb_true_r. cbn [fst].
    split; [done | by intros (? & _)]. }
  assert (text ≠ "") as Hne by (by intros ->).
  rewrite (bool_decide_eq_false_2 _ Hne), (bool_decide_eq_false_2 _ Htext).
  cbn [orb].
  destruct (Z.ltb_spec 5000 (Py.len (Py.strip text))) as [Hlong|Hlen].
  { cbn [fst]. split; [done | lia]. }
  destruct (decide (Py.strip target_language = "")) as [Hno|Hcode].
  { rewrite (bool_decide_eq_true_2 _ Hno), orb_true_r. cbn [fst].
    rewrite (strip_lower_empty _ Hno), supported_nonempty.
    split; [done | intros (_ & _ & [? ?]); done]. }
  assert (target_language ≠ "") as Hne' by (by intros ->).
  rewrite (bool_decide_eq_false_2 _ Hne'), (bool_decide_eq_false_2 _ Hcode).
  cbn [orb].
  destruct (SUPPORTED_LANGUAGES !! Py.strip (Py.lower target_language)) eqn:E;
    cbn [fst]; [by eauto | split; [done | intros (_ & _ & [? ?]); done]].
Qed.

Lemma validate_input_rejects_text text target_language :
  Py.strip text = "" ∨ (5000 < Py.len (Py.strip text))%Z →
  (validate_input text target_language).1 = false.
Proof.
  intros H. apply not_true_is_false. rewrite validate_input_accepts.
  intros (? & ? & _). destruct H; [done | lia].
Qed.

Lemma translate_invalid self text target_language s :
  (validate_input text target_language).1 = false →
  translate self text target_language s
  = (Raise (validation_failure text target_language), s).
Proof.
  unfold translate, validation_failure.
  destruct (validate_input text target_language) as [[] msg]; cbn [fst snd negb];
    [done | by intros _].
Qed.

Lemma translate_valid self text target_language :
  (validate_input text target_language).1 = true →
  translate self text target_language
  = attempts self text target_language (Z.to_nat (max_retries self)) 0%Z None.
Proof.
  unfold translate.
  by destruct (validate_input text target_language) as [[] msg].
Qed.

Lemma fetch_mock_returns self text target_language s :
  ∃ r, _fetch_mock_translation self text target_language s = (Return r, s)
       ∧ r !! "translatedText"
         = Some (PyStr
            match mock_translations !! (Py.lower text, Py.lower target_language) with
            | Some t => t
            | None =>
              "[" +:+ default "Unknown" (SUPPORTED_LANGUAGES !! Py.lower target_language)
              +:+ " translation of '" +:+ text +:+ "']"
            end)
       ∧ r !! "is_mock" = Some (PyBool true)
       ∧ r !! "attempts" = None.
Proof.
  eexists. split; [reflexivity|]. 
  repeat split; by simplify_map_eq.
Qed.

Lemma translate_mock self text target_language s :
  use_mock self = true → (1 ≤ max_retries self)%Z →
  (validate_input text target_language).1 = true →
  ∃ r, _fetch_mock_translation self text target_language s = (Return r, s)
       ∧ translate self text target_language s
         = (Return (<["attempts" := PyInt 1]> r), s).
Proof.
  intros Hmock Hmax Hvalid.
  destruct (fetch_mock_returns self text target_language s) as (r & Hr & _).
  exists r. split; [done|].
  rewrite translate_valid by done.
  destruct (Z.to_nat (max_retries self)) as [|n] eqn:E; [lia|].
  unfold attempts, try_except, fetch, mbind, M_bind. cbn beta. rewrite Hmock, Hr.
  reflexivity.
Qed.

(** ** The rate limiter *)

Lemma rate_limit_returns self s : _rate_limit self s = (Return (), throttle self s).
Proof.
  unfold throttle, _rate_limit, mbind, M_bind, time_time, get_last_request_time.
  cbn beta iota.
  destruct (Qlt_le_dec (now s - last_request_time s) (REQUEST_TIMEOUT self))
    as [Hearly|Hlate]; [|reflexivity].
  unfold time_sleep.
  destruct (Qlt_le_dec (REQUEST_TIMEOUT self - (now s - last_request_time s)) 0)
    as [Hneg|Hpos]; [lra | reflexivity].
Qed.

Lemma throttle_sent self s : sent (throttle self s) = sent s.
Proof.
  unfold throttle, _rate_limit, mbind, M_bind, time_time, get_last_request_time.
  cbn beta iota.
  destruct (Qlt_le_dec _ _); [|reflexivity].
  unfold time_sleep. by destruct (Qlt_le_dec _ 0).
Qed.

Lemma throttle_stamp self s :
  last_request_time (throttle self s) = now (throttle self s).
Proof.
  unfold throttle, _rate_limit, mbind, M_bind, time_time, get_last_request_time.
  cbn beta iota.
  destruct (Qlt_le_dec _ _) as [Hearly|Hlate]; [|reflexivity].
  unfold time_sleep. destruct (Qlt_le_dec _ 0) as [Hneg|Hpos]; [lra | reflexivity].
Qed.

Lemma throttle_clock self s :
  (now s <= now (throttle self s))%Q
  ∧ (last_request_time s + REQUEST_TIMEOUT self <= now (throttle self s))%Q.
Proof.
  unfold throttle, _rate_limit, mbind, M_bind, time_time, get_last_request_time.
  cbn beta iota.
  destruct (Qlt_le_dec _ _) as [Hearly|Hlate]; [|cbn; lra].
  unfold time_sleep. destruct (Qlt_le_dec _ 0) as [Hneg|Hpos]; cbn; lra.
Qed.

Lemma throttle_trace self s :
  trace (throttle self s) = trace s
  ∨ ∃ d, (0 < d)%Q ∧ trace (throttle self s) = trace s ++ [Slept By_rate_limit d].
Proof.
  unfold throttle, _rate_limit, mbind, M_bind, time_time, get_last_request_time.
  cbn beta iota.
  destruct (Qlt_le_dec _ _) as [Hearly|Hlate]; [|by left].
  unfold time_sleep. destruct (Qlt_le_dec _ 0) as [Hneg|Hpos]; [lra|].
  right. eexists. split; [|reflexivity]. lra.
Qed.

(** ** One live transport call *)

Lemma fetch_real_state self text target_language s :
  (_fetch_real_translation self text target_language s).2
  = posted self text target_language s.
Proof.
  unfold _fetch_real_translation, mbind, M_bind.
  rewrite rate_limit_returns. unfold session_post, posted, payload_of.
  destruct (outcome _) as [c msg|[msg|data]]; [| done |].
  - by repeat destruct (issubclass _ _).
  - unfold lift, time_time, mret, M_ret. by destruct (check_response data).
Qed.

Lemma fetch_real_response self text target_language s data :
  outcome (session self (sent s) (payload_of text target_language))
  = PostResponse (JsonValue data) →
  (_fetch_real_translation self text target_language s).1
  = match check_response data with
    | Return d =>
        Return (<["is_mock" := PyBool false]>
                (<["timestamp" :=
                     PyIsoTime (now (posted self text target_language s))]> d))
    | Raise e => Raise e
    end.
Proof.
  intros Hout. unfold _fetch_real_translation, mbind, M_bind.
  rewrite rate_limit_returns. unfold session_post, posted.
  fold (payload_of text target_language).
  rewrite !throttle_sent, Hout.
  unfold lift, time_time, mret, M_ret. by destruct (check_response data).
Qed.

Lemma fetch_real_timeout self text target_language s c msg :
  outcome (session self (sent s) (payload_of text target_language))
  = PostRaises c msg →
  issubclass c Timeout = true →
  (_fetch_real_translation self text target_language s).1
  = Raise (Exn TimeoutError
             ("Request timed out after " +:+ Py.str_of_int (TIMEOUT self)
              +:+ " seconds. " +:+ "The translation API is not responding.")
             (Some (Requests c, msg)) (Some Failure.Timeout)).
Proof.
  intros Hout Hsub. unfold _fetch_real_translation, mbind, M_bind.
  rewrite rate_limit_returns. unfold session_post.
  fold (payload_of text target_language).
  by rewrite !throttle_sent, Hout, Hsub.
Qed.

Lemma check_response_failure data e :
  check_response data = Raise e → (exn_class e, exn_kind e) ∈ live_failures.
Proof.
  unfold check_response, live_failures.
  destruct data as [| | | | | | |d]; try (intros [= <-]; set_solver).
  destruct (d !! "error") as [[| | | |error_msg| | |]|];
    try (intros [= <-]; set_solver).
  - repeat case_match; intros [= <-]; set_solver.
  - destruct (d !! "translatedText"); [done | intros [= <-]; set_solver].
Qed.

Lemma fetch_real_failure self text target_language s e s' :
  _fetch_real_translation self text target_language s = (Raise e, s') →
  (exn_class e, exn_kind e) ∈ live_failures.
Proof.
  unfold _fetch_real_translation, mbind, M_bind.
  rewrite rate_limit_returns. unfold session_post.
  destruct (outcome _) as [c msg|[msg|data]].
  - destruct (issubclass c Timeout); [intros [= <- _]; set_solver|].
    destruct (issubclass c ConnectionError); [intros [= <- _]; set_solver|].
    destruct (issubclass c RequestException) eqn:E; [intros [= <- _]; set_solver|].
    by destruct c.
  - intros [= <- _]. set_solver.
  - unfold lift, time_time, mret, M_ret.
    destruct (check_response data) as [d|e'] eqn:E; [done|].
    intros [= <- _]. by eapply check_response_failure.
Qed.

(** ** The retry loop *)

Lemma attempts_return self text target_language todo attempt last_error s r s1 :
  fetch self text target_language s = (Return r, s1) →
  attempts self text target_language (S todo) attempt last_error s
  = (Return (<["attempts" := PyInt (attempt + 1)]> r), s1).
Proof.
  intros Hfetch. cbn [attempts]. unfold try_except, mbind, M_bind.
  by rewrite Hfetch.
Qed.

Lemma attempts_reraise self text target_language todo attempt last_error s e s1 :
  fetch self text target_language s = (Raise e, s1) →
  isinstance e [TimeoutError; Requests ConnectionError] = false
  ∨ (max_retries self - 1 ≤ attempt)%Z →
  attempts self text target_language (S todo) attempt last_error s = (Raise e, s1).
Proof.
  intros Hfetch Hwhy. cbn [attempts]. unfold try_except, mbind, M_bind.
  rewrite Hfetch.
  destruct (isinstance e [TimeoutError; Requests ConnectionError]) eqn:Hcls.
  - destruct Hwhy as [|Hlast]; [done|].
    by rewrite (proj2 (Z.ltb_ge _ _) Hlast).
  - by destruct (isinstance e [ValueError; Requests RequestException]).
Qed.

Lemma attempts_retry self text target_language todo attempt last_error s e s1 :
  fetch self text target_language s = (Raise e, s1) →
  isinstance e [TimeoutError; Requests ConnectionError] = true →
  (attempt < max_retries self - 1)%Z →
  (0 <= _calculate_retry_delay self attempt)%Q →
  attempts self text target_language (S todo) attempt last_error s
  = attempts self text target_language todo (attempt + 1) (Some e)
      (backed_off self attempt s1).
Proof.
  intros Hfetch Hcls Hmore Hdelay. cbn [attempts].
  unfold try_except at 1. unfold mbind at 1, M_bind at 1.
  rewrite Hfetch, Hcls, (proj2 (Z.ltb_lt _ _) Hmore).
  unfold mbind, M_bind, log, time_sleep. cbn beta iota.
  destruct (Qlt_le_dec (_calculate_retry_delay self attempt) 0) as [Hneg|_];
    [lra | reflexivity].
Qed.

(** A property of the state that every step of [translate] keeps. *)
Lemma attempts_preserves (P : state → Prop) self text target_language :
  (∀ s, P s → P (fetch self text target_language s).2) →
  (∀ s n d, P s → P (log (Printed n d) s).2) →
  (∀ s d, P s → P (time_sleep By_translate d s).2) →
  ∀ todo attempt last_error s,
    P s → P (attempts self text target_language todo attempt last_error s).2.
Proof.
  intros Hfetch Hlog Hsleep. induction todo as [|todo IH]; intros attempt last s Hs.
  { by destruct last. }
  cbn [attempts]. unfold try_except at 1. unfold mbind at 1, M_bind at 1.
  specialize (Hfetch s Hs).
  destruct (fetch self text target_language s) as [[r|e] s1]; [done|].
  cbn [snd] in Hfetch.
  destruct (isinstance e [TimeoutError; Requests ConnectionError]).
  - destruct (attempt <? max_retries self - 1)%Z; [|done].
    unfold mbind, M_bind.
    specialize (Hlog s1 (attempt + 1)%Z (_calculate_retry_delay self attempt) Hfetch).
    destruct (log _ s1) as [[[]|e'] s2] eqn:Elog; [|done].
    cbn [snd] in Hlog.
    specialize (Hsleep s2 (_calculate_retry_delay self attempt) Hlog).
    destruct (time_sleep By_translate _ s2) as [[[]|e'] s3]; [|done].
    by apply IH.
  - by destruct (isinstance e [ValueError; Requests RequestException]).
Qed.

Lemma translate_preserves (P : state → Prop) self text target_language :
  (∀ s, P s → P (fetch self text target_language s).2) →
  (∀ s n d, P s → P (log (Printed n d) s).2) →
  (∀ s d, P s → P (time_sleep By_translate d s).2) →
  ∀ s, P s → P (translate self text target_language s).2.
Proof.
  intros Hfetch Hlog Hsleep s Hs.
  destruct (validate_input text target_language).1 eqn:Hvalid.
  - rewrite translate_valid by done. by apply attempts_preserves.
  - by rewrite translate_invalid.
Qed.

Lemma fetch_sent self text target_language s :
  sent (fetch self text target_language s).2
  = if use_mock self then sent s else S (sent s).
Proof.
  unfold fetch. destruct (use_mock self); [done|].
  by rewrite fetch_real_state; cbn; rewrite throttle_sent.
Qed.

Lemma attempts_sent_mono self text target_language todo attempt last_error s n :
  n ≤ sent s →
  n ≤ sent (attempts self text target_language todo attempt last_error s).2.
Proof.
  apply (attempts_preserves (λ s, n ≤ sent s)).
  - intros s' Hs'. rewrite fetch_sent. destruct (use_mock self); lia.
  - done.
  - intros s' d Hs'. unfold time_sleep. by destruct (Qlt_le_dec d 0).
Qed.

Lemma attempts_live_sends self text target_language todo attempt last_error s :
  use_mock self = false →
  S (sent s) ≤
  sent (attempts self text target_language (S todo) attempt last_error s).2.
Proof.
  intros Hlive.
  pose proof (fetch_sent self text target_language s) as Hsent.
  rewrite Hlive in Hsent.
  cbn [attempts]. unfold try_except at 1. unfold mbind at 1, M_bind at 1.
  destruct (fetch self text target_language s) as [[r|e] s1]; cbn [snd] in *;
    [unfold mret, M_ret; cbn [snd]; lia|].
  destruct (isinstance e [TimeoutError; Requests ConnectionError]).
  - destruct (attempt <? max_retries self - 1)%Z; [|cbn; lia].
    unfold mbind, M_bind, log, time_sleep. cbn beta iota.
    destruct (Qlt_le_dec _ 0); [cbn; lia|].
    apply attempts_sent_mono. cbn. lia.
  - destruct (isinstance e [ValueError; Requests RequestException]); cbn; lia.
Qed.

(** ** Spacing of live calls *)

Lemma spaced_snoc gap l t' :
  spaced gap l → Forall (λ t, (t + gap <= t')%Q) l → spaced gap (l ++ [t']).
Proof.
  intros Hl Hall i j t u Hij Hi Hj.
  pose proof (lookup_lt_Some _ _ _ Hj) as Hlen.
  rewrite length_app in Hlen. cbn in Hlen.
  rewrite lookup_app_l in Hi by lia.
  destruct (decide (j < length l)) as [Hin|Hout].
  - rewrite lookup_app_l in Hj by done. exact (Hl i j t u Hij Hi Hj).
  - rewrite lookup_app_r in Hj by lia.
    replace (j - length l) with 0 in Hj by lia. injection Hj as <-.
    rewrite Forall_lookup in Hall. exact (Hall i t Hi).
Qed.

Lemma post_times_throttle self s :
  post_times (trace (throttle self s)) = post_times (trace s).
Proof.
  destruct (throttle_trace self s) as [->|(d & _ & ->)]; [done|].
  unfold post_times. rewrite omap_app. cbn. by rewrite app_nil_r.
Qed.

Lemma post_times_posted self text target_language s :
  post_times (trace (posted self text target_language s))
  = post_times (trace s) ++ [last_request_time (posted self text target_language s)].
Proof.
  unfold posted. cbn [trace last_request_time]. unfold post_times at 1.
  rewrite omap_app. fold (post_times (trace (throttle self s))).
  by rewrite post_times_throttle, throttle_stamp.
Qed.

Lemma posted_throttled self text target_language s :
  (0 <= REQUEST_TIMEOUT self)%Q →
  throttled self s → throttled self (posted self text target_language s).
Proof.
  intros Hgap [Hsp Hbefore]. unfold throttled.
  rewrite post_times_posted.
  assert (last_request_time s + REQUEST_TIMEOUT self
          <= last_request_time (posted self text target_language s))%Q as Hstamp.
  { unfold posted. cbn [last_request_time]. rewrite throttle_stamp.
    apply throttle_clock. }
  split.
  - apply spaced_snoc; [done|].
    eapply Forall_impl; [exact Hbefore|]. intros t Ht. cbv beta in *. lra.
  - apply Forall_app. split.
    + eapply Forall_impl; [exact Hbefore|]. intros t Ht. cbv beta in *. lra.
    + apply Forall_singleton. lra.
Qed.

Lemma fetch_throttled self text target_language s :
  (0 <= REQUEST_TIMEOUT self)%Q →
  throttled self s → throttled self (fetch self text target_language s).2.
Proof.
  intros Hgap Hs. unfold fetch. destruct (use_mock self); [done|].
  rewrite fetch_real_state. by apply posted_throttled.
Qed.

Lemma translate_throttled self text target_language s :
  (0 <= REQUEST_TIMEOUT self)%Q →
  throttled self s → throttled self (translate self text target_language s).2.
Proof.
  intros Hgap. apply translate_preserves.
  - intros s'. by apply fetch_throttled.
  - intros s' n d [Hsp Hbefore]. unfold throttled, log, post_times in *.
    cbn [snd trace last_request_time]. rewrite omap_app. cbn.
    by rewrite app_nil_r.
  - intros s' d [Hsp Hbefore]. unfold time_sleep.
    destruct (Qlt_le_dec d 0); [done|].
    unfold throttled, post_times in *.
    cbn [snd trace last_request_time]. rewrite omap_app. cbn.
    by rewrite app_nil_r.
Qed.

Lemma translate_mock_state self text target_language s :
  use_mock self = true → (translate self text target_language s).2 = s.
Proof.
  intros Hmock.
  destruct (validate_input text target_language).1 eqn:Hvalid.
  - rewrite translate_valid by done.
    destruct (Z.to_nat (max_retries self)) as [|todo]; [done|].
    cbn [attempts]. unfold try_except, mbind, M_bind, fetch. by rewrite Hmock.
  - by rewrite translate_invalid.
Qed.

Lemma outline_posted self text target_language s :
  outline (trace (posted self text target_language s))
  = outline (trace s) ++ [Attempt].
Proof.
  unfold posted. cbn [trace]. unfold outline. rewrite omap_app. cbn.
  destruct (throttle_trace self s) as [->|(d & _ & ->)]; [done|].
  rewrite omap_app. cbn. by rewrite app_nil_r.
Qed.

Lemma outline_backed_off self attempt s :
  outline (trace (backed_off self attempt s))
  = outline (trace s) ++ [Wait (_calculate_retry_delay self attempt)].
Proof.
  unfold backed_off. cbn [trace]. unfold outline. rewrite !omap_app. cbn.
  by rewrite app_nil_r.
Qed.

Lemma sent_posted self text target_language s :
  sent (posted self text target_language s) = S (sent s).
Proof. unfold posted. cbn [sent]. by rewrite throttle_sent. Qed.

Lemma sent_backed_off self attempt s : sent (backed_off self attempt s) = sent s.
Proof. reflexivity. Qed.

Lemma calculate_retry_delay_nonneg self attempt :
  (0 <= RETRY_DELAY self)%Q → (0 ≤ attempt)%Z →
  (0 <= _calculate_retry_delay self attempt)%Q.
Proof.
  intros Hbase Hattempt. unfold _calculate_retry_delay.
  destruct (RETRY_STRATEGY self).
  - apply Qmult_le_0_compat; [done|]. by apply Qpower_0_le.
  - apply Qmult_le_0_compat; [done|]. unfold Qle. cbn. lia.
  - apply Qle_refl.
Qed.

Lemma fetch_timeout self text target_language s :
  use_mock self = false →
  times_out (session self (sent s) (payload_of text target_language)) →
  ∃ c msg,
    outcome (session self (sent s) (payload_of text target_language))
    = PostRaises c msg
    ∧ fetch self text target_language s
      = (Raise (Exn TimeoutError
                  ("Request timed out after " +:+ Py.str_of_int (TIMEOUT self)
                   +:+ " seconds. " +:+ "The translation API is not responding.")
                  (Some (Requests c, msg)) (Some Failure.Timeout)),
         posted self text target_language s).
Proof.
  intros Hlive (c & msg & Hout & Hsub). exists c, msg. split; [done|].
  unfold fetch. rewrite Hlive.
  rewrite (surjective_pairing (_fetch_real_translation _ _ _ _)).
  by rewrite fetch_real_state, (fetch_real_timeout _ _ _ _ c msg).
Qed.

(** * The claims *)

(** C1, as stated, fails: with [max_retries = 3] a transport-level failure
    other than a timeout or a connection failure, which the taxonomy labels
    ProtocolError, ends [translate] after one request although two attempts
    remain. *)
Lemma http_error_is_not_retried :
  let self := __init__ failing_http 3 false in
  let run := translate self "hello" "es" (fresh 100) in
  max_retries self = 3%Z
  ∧ failure run.1 ≫= exn_kind = Some Failure.ProtocolError
  ∧ sent run.2 = 1.
Proof. vm_compute. done. Qed.

(** C1 (amended): when a live attempt of [translate] fails and attempts
    remain, a further request is sent exactly when the exception is a
    [TimeoutError] or a [requests] [ConnectionError], that is, exactly when
    the failure is a Timeout, a ConnectionFailure, a RateLimited or a
    ProtocolError reported in the provider's error payload.  A
    MalformedResponse, an UnsupportedLanguage and a ProtocolError raised for
    any other transport exception end the call at once with that failure. *)
Theorem retry_decision self text target_language attempt last_error s e s1 :
  use_mock self = false →
  (0 <= RETRY_DELAY self)%Q →
  (0 ≤ attempt < max_retries self - 1)%Z →
  fetch self text target_language s = (Raise e, s1) →
  let run := attempts self text target_language
               (Z.to_nat (max_retries self - attempt)) attempt last_error s in
  (sent s1 < sent run.2 ↔
   isinstance e [TimeoutError; Requests ConnectionError] = true)
  ∧ (isinstance e [TimeoutError; Requests ConnectionError] = true ↔
     exn_kind e ∈ [Some Failure.Timeout; Some Failure.ConnectionFailure;
                   Some Failure.RateLimited]
     ∨ (exn_kind e = Some Failure.ProtocolError
        ∧ exn_class e = Requests ConnectionError))
  ∧ (exn_kind e ∈ [Some Failure.MalformedResponse; Some Failure.UnsupportedLanguage]
     ∨ (exn_kind e = Some Failure.ProtocolError
        ∧ exn_class e = Requests RequestException) →
     run = (Raise e, s1)).
Proof.
  intros Hlive Hbase [Hattempt Hmore] Hfetch run.
  assert ((exn_class e, exn_kind e) ∈ live_failures) as Hmem.
  { unfold fetch in Hfetch. rewrite Hlive in Hfetch.
    by eapply fetch_real_failure. }
  assert (isinstance e [TimeoutError; Requests ConnectionError] = true ↔
          exn_kind e ∈ [Some Failure.Timeout; Some Failure.ConnectionFailure;
                        Some Failure.RateLimited]
          ∨ (exn_kind e = Some Failure.ProtocolError
             ∧ exn_class e = Requests ConnectionError)) as Hkinds.
  { destruct e as [cls str ctx kind]. unfold live_failures in Hmem.
    cbn [exn_class exn_kind] in *. unfold isinstance. cbn [exn_class].
    set_unfold in Hmem. set_unfold.
    destruct_or!; simplify_eq;
      (split; intros H;
       first [by vm_compute in H | by vm_compute | intuition congruence]). }
  destruct (Z.to_nat (max_retries self - attempt)) as [|[|todo]] eqn:Htodo;
    [lia | lia |].
  assert (sent s1 = S (sent s)) as Hsent.
  { pose proof (fetch_sent self text target_language s) as Hs.
    by rewrite Hfetch, Hlive in Hs. }
  destruct (isinstance e [TimeoutError; Requests ConnectionError]) eqn:Hcls.
  - split_and!; [|done|].
    + split; [done|intros _]. subst run.
      rewrite (attempts_retry _ _ _ _ _ _ _ e s1) by
        (done || lia || by apply calculate_retry_delay_nonneg).
      pose proof (attempts_live_sends self text target_language todo
                    (attempt + 1) (Some e) (backed_off self attempt s1) Hlive).
      cbn [backed_off sent] in *. lia.
    + intros Hnot. destruct Hkinds as [Hyes _]. specialize (Hyes eq_refl).
      set_unfold in Hnot. set_unfold in Hyes.
      destruct_or!; destruct_and?; congruence.
  - assert (run = (Raise e, s1)) as Hrun.
    { subst run. apply attempts_reraise; [done | by left]. }
    split_and!; [|done|done].
    rewrite Hrun. cbn [snd]. split; [lia | done].
Qed.

Lemma retry_decision_witness :
  let self := __init__ unreachable 3 false in
  ∃ e s1,
    fetch self "hello" "es" (fresh 100) = (Raise e, s1)
    ∧ exn_kind e = Some Failure.Timeout
    ∧ (sent s1 < sent (attempts self "hello" "es" 3 0 None (fresh 100)).2 ↔
       isinstance e [TimeoutError; Requests ConnectionError] = true).
Proof.
  intros self. eexists _, _. split; [vm_compute; reflexivity|].
  split; [reflexivity|].
  refine (proj1 (retry_decision self "hello" "es" 0 None (fresh 100) _ _ _ _ _ _)).
  - reflexivity.
  - by vm_compute.
  - by vm_compute.
  - vm_compute. reflexivity.
Defined.

(** C2: with the exponential strategy, a base delay of 1 and three attempts,
    against a transport on which every request times out, [translate] sends
    exactly three requests, pauses 1 after the first and 2 after the second,
    and raises the [TimeoutError] of the third request. *)
Theorem exponential_backoff_on_timeouts (net : network) text target_language s :
  (∀ n r, times_out (net n r)) →
  (validate_input text target_language).1 = true →
  let self := __init__ net 3 false in
  let run := translate self text target_language s in
  sent run.2 = sent s + 3
  ∧ outline (trace run.2)
    = outline (trace s) ++ [Attempt; Wait 1; Attempt; Wait 2; Attempt]
  ∧ ∃ c msg,
      outcome (net (sent s + 2) (payload_of text target_language))
      = PostRaises c msg
      ∧ run.1 = Raise (Exn TimeoutError
                         ("Request timed out after 15 seconds. "
                          +:+ "The translation API is not responding.")
                         (Some (Requests c, msg)) (Some Failure.Timeout)).
Proof.
  intros Hnet Hvalid self run. subst run.
  rewrite translate_valid by done.
  change (Z.to_nat (max_retries self)) with 3.
  assert (use_mock self = false) as Hlive by done.
  destruct (fetch_timeout self text target_language s Hlive (Hnet _ _))
    as (c0 & m0 & _ & Hf0).
  rewrite (attempts_retry _ _ _ _ _ _ _ _ _ Hf0) by done.
  set (s1 := backed_off self 0 (posted self text target_language s)).
  destruct (fetch_timeout self text target_language s1 Hlive (Hnet _ _))
    as (c1 & m1 & _ & Hf1).
  rewrite (attempts_retry _ _ _ _ _ _ _ _ _ Hf1) by done.
  set (s2 := backed_off self (0 + 1) (posted self text target_language s1)).
  destruct (fetch_timeout self text target_language s2 Hlive (Hnet _ _))
    as (c2 & m2 & Hout & Hf2).
  rewrite (attempts_reraise _ _ _ _ _ _ _ _ _ Hf2) by (by right).
  assert (sent s2 = sent s + 2) as Hsent.
  { subst s2 s1.
    repeat (rewrite sent_backed_off || rewrite sent_posted). lia. }
  cbn [fst snd]. split_and!.
  - rewrite sent_posted. lia.
  - subst s2 s1.
    repeat (rewrite outline_posted || rewrite outline_backed_off).
    by rewrite <- !app_assoc.
  - exists c2, m2. split; [|done]. rewrite <- Hsent. exact Hout.
Qed.

Lemma exponential_backoff_on_timeouts_witness :
  let run := translate (__init__ unreachable 3 false) "hello" "es" (fresh 100) in
  sent run.2 = 3
  ∧ outline (trace run.2) = [Attempt; Wait 1; Attempt; Wait 2; Attempt].
Proof.
  intros run.
  destruct (exponential_backoff_on_timeouts unreachable "hello" "es" (fresh 100))
    as (Hsent & Houtline & _).
  - intros n r. by exists ReadTimeout, ("read timed out, request " +:+ Py.str_of_int (Z.of_nat n)).
  - reflexivity.
  - split; [exact Hsent | exact Houtline].
Defined.




(** C4, as stated, fails: the code ["auto"] is a key of
    [SUPPORTED_LANGUAGES] and [validate_input] accepts it as a target. *)
Lemma auto_is_accepted_as_target :
  validate_input "hello world" "auto" = (true, None)
  ∧ SUPPORTED_LANGUAGES !! "auto" = Some "Auto-detect".
Proof. by vm_compute. Qed.

(** C4 (amended): for a request whose text passes the text checks,
    [validate_input] accepts the target code exactly when its lowercased,
    trimmed form is a key of [SUPPORTED_LANGUAGES]; so ["ES"], ["es"] and
    [" es "] are accepted, and so is ["auto"], which is a key like any
    other. *)
Theorem validate_input_target_check text target_language :
  Py.strip text ≠ "" → (Py.len (Py.strip text) ≤ 5000)%Z →
  ((validate_input text target_language).1 = true ↔
   is_Some (SUPPORTED_LANGUAGES !! Py.strip (Py.lower target_language)))
  ∧ (target_language ∈ ["ES"; "es"; " es "; "auto"] →
     validate_input text target_language = (true, None)).
Proof.
  intros Htext Hlen.
  assert ((validate_input text target_language).1 = true ↔
          is_Some (SUPPORTED_LANGUAGES !! Py.strip (Py.lower target_language)))
    as Hiff.
  { rewrite validate_input_accepts. split; [by intros (_ & _ & ?) | done]. }
  split; [done|].
  intros Hcode.
  assert (is_Some (SUPPORTED_LANGUAGES !! Py.strip (Py.lower target_language)))
    as Hkey.
  { set_unfold in Hcode. destruct_or!; subst; vm_compute; eauto. }
  apply Hiff in Hkey.
  destruct (validate_input text target_language) as [ok msg] eqn:E.
  cbn [fst] in Hkey. subst ok. f_equal.
  unfold validate_input in E. repeat case_match; by simplify_eq.
Qed.

Lemma validate_input_target_check_witness :
  Py.strip "good morning" ≠ ""
  ∧ (Py.len (Py.strip "good morning") ≤ 5000)%Z
  ∧ validate_input "good morning" " es " = (true, None).
Proof.
  split_and!; [done | by vm_compute |].
  apply (validate_input_target_check "good morning" " es ");
    [done | by vm_compute | set_solver].
Defined.

(** C5, as stated, fails: a text of 5001 characters that starts with a
    space has 5000 characters once trimmed, passes validation and is sent
    to the provider. *)
Lemma padded_long_text_is_sent :
  let text := " " +:+ Py.repeat "a" 5000 in
  let run := translate (__init__ echo 3 false) text "es" (fresh 100) in
  (5000 < Py.len text)%Z ∧ returned run.1 = true ∧ sent run.2 = 1.
Proof. vm_compute. done. Qed.

(** C5 (amended): for every request whose text is blank, or longer than
    5000 characters after surrounding whitespace is removed, [translate]
    raises the Validation failure and leaves the state as it was: no
    request is sent and nothing sleeps.  Validation comes first: when
    [validate_input] refuses, [translate] raises without entering the
    retry loop, and when it accepts, [translate] is the retry loop started
    at attempt 0. *)
Theorem translate_rejects_bad_text self text target_language s :
  (Py.strip text = "" ∨ (5000 < Py.len (Py.strip text))%Z →
   translate self text target_language s
   = (Raise (validation_failure text target_language), s))
  ∧ exn_class (validation_failure text target_language) = ValueError
  ∧ exn_kind (validation_failure text target_language) = Some Failure.Validation
  ∧ ((validate_input text target_language).1 = false →
     translate self text target_language s
     = (Raise (validation_failure text target_language), s))
  ∧ ((validate_input text target_language).1 = true →
     translate self text target_language s
     = attempts self text target_language (Z.to_nat (max_retries self)) 0 None s).
Proof.
  split_and!; [|done|done| |].
  - intros Hbad. apply translate_invalid. by apply validate_input_rejects_text.
  - apply translate_invalid.
  - intros Hvalid. by rewrite translate_valid.
Qed.

Lemma translate_rejects_bad_text_witness :
  let text := "a" +:+ Py.repeat "a" 5000 in
  (5000 < Py.len (Py.strip text))%Z
  ∧ translate (__init__ echo 3 false) text "es" (fresh 100)
    = (Raise (validation_failure text "es"), fresh 100).
Proof.
  intros text. split; [by vm_compute|].
  refine (proj1 (translate_rejects_bad_text _ text "es" _) (or_intror _)).
  by vm_compute.
Defined.

(** C6: for an attempt number counted from zero, the back-off delay is
    [RETRY_DELAY * 2 ^ attempt] under the exponential strategy,
    [RETRY_DELAY * (attempt + 1)] under the linear one and 0 under the
    immediate one; it depends on the strategy, the base delay and the
    attempt number only. *)
Theorem calculate_retry_delay_spec (self : client) (attempt : Z) :
  (0 ≤ attempt)%Z →
  (RETRY_STRATEGY self = EXPONENTIAL →
   (_calculate_retry_delay self attempt
    == RETRY_DELAY self * inject_Z (2 ^ attempt))%Q)
  ∧ (RETRY_STRATEGY self = LINEAR →
     _calculate_retry_delay self attempt
     = (RETRY_DELAY self * inject_Z (attempt + 1))%Q)
  ∧ (RETRY_STRATEGY self = IMMEDIATE → _calculate_retry_delay self attempt = 0%Q)
  ∧ (∀ other : client,
       RETRY_STRATEGY other = RETRY_STRATEGY self →
       RETRY_DELAY other = RETRY_DELAY self →
       _calculate_retry_delay other attempt = _calculate_retry_delay self attempt).
Proof.
  intros Hattempt. unfold _calculate_retry_delay. split_and!.
  - intros ->. by rewrite (Zpower_Qpower 2 attempt Hattempt).
  - by intros ->.
  - by intros ->.
  - by intros other -> ->.
Qed.

Lemma calculate_retry_delay_spec_witness :
  (0 ≤ 3)%Z
  ∧ (_calculate_retry_delay (__init__ unreachable 3 false) 3 == 8)%Q.
Proof.
  split; [lia|].
  apply (calculate_retry_delay_spec (__init__ unreachable 3 false) 3); [lia | done].
Defined.

(** C7, as stated, fails: the request for ["good night"] in [" fr "] passes
    validation and is not in the mock table, yet the placeholder it gets
    names the language Unknown, not French: the mock path lowercases the
    target code and does not trim it. *)
Lemma padded_code_gets_unknown_placeholder :
  let run := translate (__init__ echo 3 true) "good night" " fr " (fresh 100) in
  (validate_input "good night" " fr ").1 = true
  ∧ mock_translations !! (Py.lower "good night", Py.lower " fr ") = None
  ∧ SUPPORTED_LANGUAGES !! Py.strip (Py.lower " fr ") = Some "French"
  ∧ value run.1 ≫= (λ r, r !! "translatedText")
    = Some (PyStr "[Unknown translation of 'good night']").
Proof. vm_compute. done. Qed.

(** C7 (amended): the mock path always returns and changes nothing.
    Translating ["hello world"] to ["es"] gives ["Hola mundo"], marked as
    mock data, on attempt 1.  For a text and target that the table lacks,
    the result is the placeholder made of the text as given and of the
    display name of the lowercased target when that is a key of
    [SUPPORTED_LANGUAGES], and of the word Unknown when it is not (as for a
    code with blanks around it, which the mock path does not trim).  A
    valid request to a mock client with at least one attempt always yields
    a result on attempt 1. *)
Theorem mock_path_total self text target_language s :
  use_mock self = true → (1 ≤ max_retries self)%Z →
  (∃ r, translate self "hello world" "es" s = (Return r, s)
        ∧ r !! "translatedText" = Some (PyStr "Hola mundo")
        ∧ r !! "is_mock" = Some (PyBool true)
        ∧ r !! "attempts" = Some (PyInt 1))
  ∧ (∃ r, _fetch_mock_translation self text target_language s = (Return r, s))
  ∧ (mock_translations !! (Py.lower text, Py.lower target_language) = None →
     ∀ name, SUPPORTED_LANGUAGES !! Py.lower target_language = Some name →
     ∃ r, _fetch_mock_translation self text target_language s = (Return r, s)
          ∧ r !! "translatedText"
            = Some (PyStr ("[" +:+ name +:+ " translation of '" +:+ text +:+ "']")))
  ∧ (mock_translations !! (Py.lower text, Py.lower target_language) = None →
     SUPPORTED_LANGUAGES !! Py.lower target_language = None →
     ∃ r, _fetch_mock_translation self text target_language s = (Return r, s)
          ∧ r !! "translatedText"
            = Some (PyStr ("[Unknown translation of '" +:+ text +:+ "']")))
  ∧ ((validate_input text target_language).1 = true →
     ∃ r, translate self text target_language s = (Return r, s)
          ∧ r !! "is_mock" = Some (PyBool true)
          ∧ r !! "attempts" = Some (PyInt 1)).
Proof.
  intros Hmock Hmax. split_and!.
  - destruct (translate_mock self "hello world" "es" s Hmock Hmax eq_refl)
      as (r & Hr & ->).
    destruct (fetch_mock_returns self "hello world" "es" s)
      as (r' & Hr' & Htext & Hflag & _).
    rewrite Hr in Hr'. injection Hr' as <-.
    eexists. split; [done|]. split_and!.
    + rewrite lookup_insert_ne by done. rewrite Htext. by vm_compute.
    + by rewrite lookup_insert_ne.
    + apply lookup_insert_eq.
  - destruct (fetch_mock_returns self text target_language s) as (r & Hr & _).
    by exists r.
  - intros Hmiss name Hname.
    destruct (fetch_mock_returns self text target_language s)
      as (r & Hr & Htext & _).
    exists r. split; [done|]. by rewrite Htext, Hmiss, Hname.
  - intros Hmiss Hname.
    destruct (fetch_mock_returns self text target_language s)
      as (r & Hr & Htext & _).
    exists r. split; [done|]. by rewrite Htext, Hmiss, Hname.
  - intros Hvalid.
    destruct (translate_mock self text target_language s Hmock Hmax Hvalid)
      as (r & Hr & ->).
    destruct (fetch_mock_returns self text target_language s)
      as (r' & Hr' & _ & Hflag & _).
    rewrite Hr in Hr'. injection Hr' as <-.
    eexists. split; [done|]. split.
    + by rewrite lookup_insert_ne.
    + apply lookup_insert_eq.
Qed.

Lemma mock_path_total_witness :
  let self := __init__ unreachable 3 true in
  use_mock self = true ∧ (1 ≤ max_retries self)%Z
  ∧ mock_translations !! (Py.lower "Good Night", Py.lower "FR") = None
  ∧ (∃ r, _fetch_mock_translation self "Good Night" "FR" (fresh 100)
          = (Return r, fresh 100)
          ∧ r !! "translatedText"
            = Some (PyStr "[French translation of 'Good Night']"))
  ∧ SUPPORTED_LANGUAGES !! Py.lower " fr " = None
  ∧ (∃ r, _fetch_mock_translation self "Good Night" " fr " (fresh 100)
          = (Return r, fresh 100)
          ∧ r !! "translatedText"
            = Some (PyStr "[Unknown translation of 'Good Night']")).
Proof.
  intros self. split_and!; [done | done | done | | done |].
  - refine (proj1 (proj2 (proj2
              (mock_path_total self "Good Night" "FR" (fresh 100) eq_refl _)))
              eq_refl "French" eq_refl).
    done.
  - refine (proj1 (proj2 (proj2 (proj2
              (mock_path_total self "Good Night" " fr " (fresh 100) eq_refl _))))
              eq_refl eq_refl).
    done.
Defined.

(** C8: [_rate_limit] always returns; afterwards the clock is at least
    [REQUEST_TIMEOUT] past the previous stamp and [last_request_time] is
    the clock reading after the wait.  A live call runs it first and sends
    its request at that reading, however the call ends.  Hence the requests
    of one client are pairwise at least [REQUEST_TIMEOUT] apart: this holds
    of a new client and every call of [translate] keeps it.  With
    [use_mock] set, [translate] leaves the clock, the stamp and the trace
    untouched.  Time is read off an ideal clock: [time.sleep(d)] takes
    exactly [d], a request takes its latency, all else takes no time. *)
Theorem rate_limiter_spacing self text target_language s :
  (0 <= REQUEST_TIMEOUT self)%Q →
  (∃ s1, _rate_limit self s = (Return (), s1)
         ∧ (now s <= now s1)%Q
         ∧ (last_request_time s + REQUEST_TIMEOUT self <= now s1)%Q
         ∧ last_request_time s1 = now s1)
  ∧ (let s2 := (_fetch_real_translation self text target_language s).2 in
     last_request_time s2 = now (throttle self s)
     ∧ trace s2 = trace (throttle self s)
                  ++ [Posted (last_request_time s2)
                        (payload_of text target_language)])
  ∧ (∀ clock, throttled self (fresh clock))
  ∧ (throttled self s → throttled self (translate self text target_language s).2)
  ∧ (use_mock self = true → (translate self text target_language s).2 = s).
Proof.
  intros Hgap. split_and!.
  - exists (throttle self s). split; [apply rate_limit_returns|].
    split_and!; [apply throttle_clock | apply throttle_clock | apply throttle_stamp].
  - rewrite fetch_real_state. unfold posted. cbn [last_request_time trace].
    by rewrite throttle_stamp.
  - intros clock. split; [by intros i j t t' _ ?|]. by apply Forall_nil.
  - by apply translate_throttled.
  - apply translate_mock_state.
Qed.

Lemma rate_limiter_spacing_witness :
  let self := __init__ echo 3 false in
  let s1 := (translate self "hello" "es" (fresh 100)).2 in
  let s2 := (translate self "goodbye" "fr" s1).2 in
  (0 <= REQUEST_TIMEOUT self)%Q
  ∧ length (post_times (trace s2)) = 2
  ∧ throttled self s2.
Proof.
  intros self s1 s2. split_and!; [done | by vm_compute |].
  assert (0 <= REQUEST_TIMEOUT self)%Q as Hgap by done.
  apply (rate_limiter_spacing self "goodbye" "fr" s1 Hgap).
  apply (rate_limiter_spacing self "hello" "es" (fresh 100) Hgap).
  apply (rate_limiter_spacing self "hello" "es" (fresh 100) Hgap).
Defined.

(** C9: a client built with [max_retries = 0], given a request that passes
    validation, runs no iteration of the loop and reaches
    [raise last_error] with [last_error] still [None]: [translate] ends
    with a [TypeError], which is neither a result nor a failure of the
    taxonomy, and no request is sent. *)
Theorem translate_without_attempts net mock text target_language s :
  (validate_input text target_language).1 = true →
  ∃ e, translate (__init__ net 0 mock) text target_language s = (Raise e, s)
       ∧ exn_class e = TypeError
       ∧ exn_kind e = None.
Proof.
  intros Hvalid. eexists. rewrite translate_valid by done.
  split; [reflexivity|]. done.
Qed.

Lemma translate_without_attempts_witness :
  (validate_input "hello world" "es").1 = true
  ∧ ∃ e, translate (__init__ echo 0 false) "hello world" "es" (fresh 100)
         = (Raise e, fresh 100)
         ∧ exn_class e = TypeError
         ∧ exn_kind e = None.
Proof.
  split; [by vm_compute|].
  apply (translate_without_attempts echo false "hello world" "es" (fresh 100)).
  by vm_compute.
Defined.

(** C10: for every request that fails validation, [translate] raises the
    Validation failure and [last_request_time] holds the value it had
    before the call; indeed the whole state is as before. *)
Theorem invalid_request_keeps_rate_limit_state self text target_language s :
  (validate_input text target_language).1 = false →
  ∃ e s', translate self text target_language s = (Raise e, s')
          ∧ exn_class e = ValueError
          ∧ exn_kind e = Some Failure.Validation
          ∧ last_request_time s' = last_request_time s
          ∧ s' = s.
Proof.
  intros Hbad. exists (validation_failure text target_language), s.
  by rewrite translate_invalid.
Qed.

Lemma invalid_request_keeps_rate_limit_state_witness :
  let s := (translate (__init__ echo 3 false) "hello" "es" (fresh 100)).2 in
  (validate_input "hello" "xx").1 = false
  ∧ ∃ e s', translate (__init__ echo 3 false) "hello" "xx" s = (Raise e, s')
            ∧ exn_class e = ValueError
            ∧ exn_kind e = Some Failure.Validation
            ∧ last_request_time s' = last_request_time s
            ∧ s' = s.
Proof.
  intros s. split; [by vm_compute|].
  apply (invalid_request_keeps_rate_limit_state (__init__ echo 3 false) "hello" "xx" s).
  by vm_compute.
Defined.

(** * Further properties *)

(** ** The loop, one iteration at a time *)

Lemma attempts_cases self text target_language todo attempt last_error s :
  attempts self text target_language (S todo) attempt last_error s
  = match (fetch self text target_language s).1 with
    | Return r =>
        (Return (<["attempts" := PyInt (attempt + 1)]> r),
         (fetch self text target_language s).2)
    | Raise e =>
        if isinstance e [TimeoutError; Requests ConnectionError]
           && (attempt <? max_retries self - 1)%Z
        then
          if Qlt_le_dec (_calculate_retry_delay self attempt) 0
          then (Raise (Exn ValueError "sleep length must be non-negative" None None),
                (log (Printed (attempt + 1) (_calculate_retry_delay self attempt))
                   (fetch self text target_language s).2).2)
          else attempts self text target_language todo (attempt + 1) (Some e)
                 (backed_off self attempt (fetch self text target_language s).2)
        else (Raise e, (fetch self text target_language s).2)
    end.
Proof.
  cbn [attempts]. unfold try_except at 1. unfold mbind at 1, M_bind at 1.
  destruct (fetch self text target_language s) as [[r|e] s1]; cbn [fst snd];
    [done|].
  destruct (isinstance e [TimeoutError; Requests ConnectionError]); cbn [andb].
  - destruct (attempt <? max_retries self - 1)%Z; [|done].
    unfold mbind, M_bind, log, time_sleep. cbn beta iota.
    by destruct (Qlt_le_dec (_calculate_retry_delay self attempt) 0).
  - by destruct (isinstance e [ValueError; Requests RequestException]).
Qed.

Lemma attempts_sent_bound self text target_language todo attempt last_error s :
  sent (attempts self text target_language todo attempt last_error s).2
  ≤ sent s + todo.
Proof.
  revert attempt last_error s.
  induction todo as [|todo IH]; intros attempt last s.
  { destruct last; cbn; lia. }
  rewrite attempts_cases.
  pose proof (fetch_sent self text target_language s) as Hsent.
  assert (sent (fetch self text target_language s).2 ≤ S (sent s)) as Hle
    by (destruct (use_mock self); lia).
  clear Hsent.
  destruct (fetch self text target_language s) as [[r|e] s1]; cbn [fst snd] in *;
    [lia|].
  destruct (_ && _); [|cbn [snd]; lia].
  destruct (Qlt_le_dec _ 0).
  - cbn [log snd sent]. lia.
  - specialize (IH (attempt + 1)%Z (Some e) (backed_off self attempt s1)).
    cbn [backed_off sent] in IH. lia.
Qed.

Lemma fetch_returns self text target_language s r s1 :
  fetch self text target_language s = (Return r, s1) →
  r !! "is_mock" = Some (PyBool (use_mock self)) ∧ r !! "attempts" = None
  ∨ use_mock self = false ∧ r !! "is_mock" = Some (PyBool false).
Proof.
  unfold fetch. destruct (use_mock self) eqn:Hmock.
  - destruct (fetch_mock_returns self text target_language s)
      as (r' & -> & _ & Hflag & Hnone).
    intros [= <- _]. by left.
  - unfold _fetch_real_translation, mbind, M_bind.
    rewrite rate_limit_returns. unfold session_post.
    destruct (outcome _) as [c msg|[msg|data]]; [| done |].
    + by repeat destruct (issubclass _ _).
    + unfold lift, time_time, mret, M_ret.
      destruct (check_response data); [|done].
      intros [= <- _]. right. split; [done|]. apply lookup_insert_eq.
Qed.

Lemma fetch_raises self text target_language s e s1 :
  fetch self text target_language s = (Raise e, s1) →
  use_mock self = false ∧ (exn_class e, exn_kind e) ∈ live_failures.
Proof.
  unfold fetch. destruct (use_mock self); [done|].
  intros Hfetch. split; [done|]. by eapply fetch_real_failure.
Qed.

(** What the loop returns, when it returns. *)
Lemma attempts_returns self text target_language todo attempt last_error s r s' :
  attempts self text target_language todo attempt last_error s = (Return r, s') →
  ∃ n, r !! "attempts" = Some (PyInt n)
       ∧ (attempt + 1 ≤ n ≤ attempt + Z.of_nat todo)%Z
       ∧ (n ≤ Z.max (attempt + 1) (max_retries self))%Z
       ∧ r !! "is_mock" = Some (PyBool (use_mock self))
       ∧ sent s' = if use_mock self then sent s
                   else sent s + Z.to_nat (n - attempt).
Proof.
  revert attempt last_error s.
  induction todo as [|todo IH]; intros attempt last s.
  { by destruct last. }
  rewrite attempts_cases.
  pose proof (fetch_sent self text target_language s) as Hsent.
  destruct (fetch self text target_language s) as [[r0|e] s1] eqn:Hfetch;
    cbn [fst snd] in *.
  - intros [= <- <-]. exists (attempt + 1)%Z.
    split; [apply lookup_insert_eq|]. split; [lia|]. split; [lia|].
    split.
    + rewrite lookup_insert_ne by done.
      destruct (fetch_returns _ _ _ _ _ _ Hfetch) as [[? _]|[-> ?]]; done.
    + rewrite Hsent. destruct (use_mock self); [done|].
      replace (attempt + 1 - attempt)%Z with 1%Z by lia. simpl. lia.
  - destruct (isinstance e _) eqn:Hcls; cbn [andb]; [|done].
    destruct (Z.ltb_spec attempt (max_retries self - 1)) as [Hmore|]; [|done].
    destruct (Qlt_le_dec _ 0); [done|].
    intros Hrun. apply IH in Hrun as (n & Hn & Hrange & Hmax & Hflag & Hs').
    exists n. split; [done|]. split; [lia|]. split; [lia|]. split; [done|].
    rewrite Hs'. cbn [backed_off sent]. rewrite Hsent.
    destruct (fetch_raises _ _ _ _ _ _ Hfetch) as [-> _]. lia.
Qed.

(** What the loop raises, when it raises. *)
Lemma attempts_raises self text target_language todo attempt last_error s e s' :
  (0 <= RETRY_DELAY self)%Q → (0 ≤ attempt)%Z →
  (match last_error with
   | Some e0 => use_mock self = false
                ∧ (exn_class e0, exn_kind e0) ∈ live_failures
   | None => todo ≠ 0
   end) →
  attempts self text target_language todo attempt last_error s = (Raise e, s') →
  use_mock self = false ∧ (exn_class e, exn_kind e) ∈ live_failures.
Proof.
  intros Hbase. revert attempt last_error s.
  induction todo as [|todo IH]; intros attempt last s Hattempt Hlast.
  { destruct last as [e0|]; [|done]. cbn. by intros [= <- _]. }
  rewrite attempts_cases.
  destruct (fetch self text target_language s) as [[r0|e1] s1] eqn:Hfetch;
    cbn [fst snd]; [done|].
  apply fetch_raises in Hfetch as Hfail.
  destruct (_ && _).
  - pose proof (calculate_retry_delay_nonneg self attempt Hbase Hattempt).
    destruct (Qlt_le_dec _ 0); [lra|].
    apply IH; [lia | done].
  - by intros [= <- _].
Qed.

(** X1: one call of [translate] sends at most [max_retries] requests,
    whatever the network does, and none at all when validation refuses the
    request; the count of requests sent never goes down. *)
Theorem translate_request_bound self text target_language s :
  sent s ≤ sent (translate self text target_language s).2
  ∧ sent (translate self text target_language s).2
    ≤ sent s + Z.to_nat (max_retries self)
  ∧ ((validate_input text target_language).1 = false →
     sent (translate self text target_language s).2 = sent s).
Proof.
  destruct (validate_input text target_language).1 eqn:Hvalid.
  - rewrite translate_valid by done. split_and!.
    + by apply attempts_sent_mono.
    + apply attempts_sent_bound.
    + done.
  - rewrite translate_invalid by done. cbn. split_and!; [lia | lia | done].
Qed.

(** X2: when [translate] returns a result, the request passed validation,
    the result's [attempts] field is a number between 1 and [max_retries],
    its [is_mock] field is the client's [use_mock] flag, and a live client
    has sent exactly [attempts] requests during the call (a mock client
    none). *)
Theorem translate_result_fields self text target_language s r s' :
  translate self text target_language s = (Return r, s') →
  (validate_input text target_language).1 = true
  ∧ ∃ n, r !! "attempts" = Some (PyInt n)
         ∧ (1 ≤ n ≤ max_retries self)%Z
         ∧ r !! "is_mock" = Some (PyBool (use_mock self))
         ∧ sent s' = if use_mock self then sent s else sent s + Z.to_nat n.
Proof.
  destruct (validate_input text target_language).1 eqn:Hvalid.
  - rewrite translate_valid by done. intros Hrun. split; [done|].
    apply attempts_returns in Hrun as (n & Hn & Hrange & Hmax & Hflag & Hs').
    exists n. split; [done|]. split; [lia|]. split; [done|].
    by rewrite Z.sub_0_r in Hs'.
  - by rewrite translate_invalid.
Qed.

Lemma translate_result_fields_witness :
  let self := __init__ flaky 3 false in
  ∃ r s', translate self "hello" "es" (fresh 100) = (Return r, s')
          ∧ (validate_input "hello" "es").1 = true
          ∧ ∃ n, r !! "attempts" = Some (PyInt n)
                 ∧ (1 ≤ n ≤ max_retries self)%Z
                 ∧ r !! "is_mock" = Some (PyBool (use_mock self))
                 ∧ sent s' = if use_mock self then sent (fresh 100)
                             else sent (fresh 100) + Z.to_nat n.
Proof.
  intros self. eexists _, _. split; [vm_compute; reflexivity|].
  apply (translate_result_fields self "hello" "es" (fresh 100)).
  vm_compute. reflexivity.
Defined.

(** X3: every way [translate] can raise.  With a base delay that is not
    negative, an exception out of [translate] is the Validation failure of
    a refused request (state untouched), or the [TypeError] of a client
    with [max_retries <= 0] (state untouched), or an exception of a live
    call: a mock client with at least one attempt never raises on a valid
    request. *)
Theorem translate_failures self text target_language s e s' :
  (0 <= RETRY_DELAY self)%Q →
  translate self text target_language s = (Raise e, s') →
  ((validate_input text target_language).1 = false
   ∧ e = validation_failure text target_language ∧ s' = s)
  ∨ ((validate_input text target_language).1 = true
     ∧ (max_retries self ≤ 0)%Z
     ∧ exn_class e = TypeError ∧ exn_kind e = None ∧ s' = s)
  ∨ ((validate_input text target_language).1 = true
     ∧ (1 ≤ max_retries self)%Z
     ∧ use_mock self = false
     ∧ (exn_class e, exn_kind e) ∈ live_failures).
Proof.
  intros Hbase.
  destruct (validate_input text target_language).1 eqn:Hvalid.
  - rewrite translate_valid by done.
    destruct (Z.to_nat (max_retries self)) as [|todo] eqn:Htodo.
    + cbn. intros [= <- <-]. right; left. split_and!; [done | lia | done..].
    + intros Hrun. right; right.
      destruct (attempts_raises self text target_language (S todo) 0 None s e s'
                  Hbase (Z.le_refl 0) (Nat.neq_succ_0 todo) Hrun) as [Hlive Hin].
      split_and!; [done | lia | done | done].
  - rewrite translate_invalid by done. intros [= <- <-]. by left.
Qed.

Lemma translate_failures_witness :
  let self := __init__ failing_http 3 false in
  (0 <= RETRY_DELAY self)%Q
  ∧ ∃ e s', translate self "hello" "es" (fresh 100) = (Raise e, s')
            ∧ (exn_class e, exn_kind e) ∈ live_failures.
Proof.
  intros self. split; [done|]. eexists _, _. split; [vm_compute; reflexivity|].
  destruct (translate_failures self "hello" "es" (fresh 100) _ _
              ltac:(done) eq_refl) as [(Hbad & _)|[(_ & Hmax & _)|(_ & _ & _ & Hin)]].
  - by vm_compute in Hbad.
  - by vm_compute in Hmax.
  - exact Hin.
Defined.

(** ** Runs against a failing network *)

Lemma fetch_retryable self text target_language s :
  use_mock self = false →
  fails_retryably (session self (sent s) (payload_of text target_language)) →
  ∃ e c msg,
    fetch self text target_language s = (Raise e, posted self text target_language s)
    ∧ isinstance e [TimeoutError; Requests ConnectionError] = true
    ∧ outcome (session self (sent s) (payload_of text target_language))
      = PostRaises c msg
    ∧ exn_context e = Some (Requests c, msg)
    ∧ exn_kind e ∈ [Some Failure.Timeout; Some Failure.ConnectionFailure].
Proof.
  intros Hlive (c & msg & Hout & Hcls).
  unfold fetch. rewrite Hlive.
  rewrite (surjective_pairing (_fetch_real_translation _ _ _ _)), fetch_real_state.
  unfold _fetch_real_translation, mbind, M_bind.
  rewrite rate_limit_returns. unfold session_post.
  fold (payload_of text target_language). rewrite !throttle_sent, Hout.
  destruct (issubclass c Timeout) eqn:Ht.
  - eexists _, c, msg. split; [reflexivity|]. split_and!; [done..|repeat constructor].
  - destruct Hcls as [|Hc]; [done|]. rewrite Hc.
    eexists _, c, msg. split; [reflexivity|]. split_and!; [done..|repeat constructor].
Qed.

Lemma fetch_response self text target_language s data d :
  use_mock self = false →
  outcome (session self (sent s) (payload_of text target_language))
  = PostResponse (JsonValue data) →
  check_response data = Return d →
  fetch self text target_language s
  = (Return (<["is_mock" := PyBool false]>
             (<["timestamp" :=
                  PyIsoTime (now (posted self text target_language s))]> d)),
     posted self text target_language s).
Proof.
  intros Hlive Hout Hcheck. unfold fetch. rewrite Hlive.
  rewrite (surjective_pairing (_fetch_real_translation _ _ _ _)), fetch_real_state.
  by rewrite (fetch_real_response _ _ _ _ data), Hcheck.
Qed.

Lemma attempts_succeed_after self text target_language data d k :
  use_mock self = false → (0 <= RETRY_DELAY self)%Q →
  check_response data = Return d →
  ∀ todo attempt last_error s,
    (0 ≤ attempt)%Z → (attempt + Z.of_nat k < max_retries self)%Z → k < todo →
    (∀ i, i < k →
       fails_retryably (session self (sent s + i) (payload_of text target_language))) →
    outcome (session self (sent s + k) (payload_of text target_language))
    = PostResponse (JsonValue data) →
    ∃ s', attempts self text target_language todo attempt last_error s
          = (Return (<["attempts" := PyInt (attempt + Z.of_nat k + 1)]>
                     (<["is_mock" := PyBool false]>
                      (<["timestamp" := PyIsoTime (now s')]> d))), s')
          ∧ sent s' = sent s + S k
          ∧ outline (trace s') = outline (trace s) ++ schedule self attempt (S k).
Proof.
  intros Hlive Hbase Hcheck.
  induction k as [|k IH]; intros todo attempt last s Hattempt Hmore Htodo Hfail Hok.
  - destruct todo as [|todo]; [lia|].
    rewrite Nat.add_0_r in Hok.
    exists (posted self text target_language s).
    rewrite (attempts_return _ _ _ _ _ _ _ _ _
               (fetch_response _ _ _ _ _ _ Hlive Hok Hcheck)).
    rewrite Z.add_0_r, sent_posted, outline_posted. split_and!; [done | lia | done].
  - destruct todo as [|todo]; [lia|].
    destruct (fetch_retryable self text target_language s Hlive)
      as (e & c & msg & Hfetch & Hcls & _).
    { specialize (Hfail 0). rewrite Nat.add_0_r in Hfail. apply Hfail. lia. }
    rewrite (attempts_retry _ _ _ _ _ _ _ _ _ Hfetch Hcls) by
      (lia || by apply calculate_retry_delay_nonneg).
    set (s1 := backed_off self attempt (posted self text target_language s)).
    assert (sent s1 = S (sent s)) as Hsent
      by (subst s1; by rewrite sent_backed_off, sent_posted).
    destruct (IH todo (attempt + 1)%Z (Some e) s1) as (s' & Hrun & Hs' & Hout);
      [lia | lia | lia | | |].
    { intros i Hi. rewrite Hsent.
      replace (S (sent s) + i) with (sent s + S i) by lia. apply Hfail. lia. }
    { rewrite Hsent. by replace (S (sent s) + k) with (sent s + S k) by lia. }
    exists s'. rewrite Hrun. split_and!.
    + by replace (attempt + Z.of_nat (S k) + 1)%Z
        with (attempt + 1 + Z.of_nat k + 1)%Z by lia.
    + lia.
    + rewrite Hout. subst s1. rewrite outline_backed_off, outline_posted.
      rewrite <- !app_assoc. done.
Qed.

(** X4: a live call whose first [k] requests fail with a timeout or a
    connection error and whose next request is answered with an acceptable
    response succeeds, as long as [k < max_retries]: [k + 1] requests are
    sent, with a pause after each failed one, and the result is the
    provider's object with [timestamp], [is_mock = False] and
    [attempts = k + 1] written over whatever it held under those keys; every
    other key of the response is passed on unchanged. *)
Theorem translate_succeeds_after_failures self text target_language s data d k :
  use_mock self = false → (0 <= RETRY_DELAY self)%Q →
  (validate_input text target_language).1 = true →
  (Z.of_nat k < max_retries self)%Z →
  (∀ i, i < k →
     fails_retryably (session self (sent s + i) (payload_of text target_language))) →
  outcome (session self (sent s + k) (payload_of text target_language))
  = PostResponse (JsonValue data) →
  check_response data = Return d →
  ∃ r s', translate self text target_language s = (Return r, s')
          ∧ r !! "attempts" = Some (PyInt (Z.of_nat k + 1))
          ∧ r !! "is_mock" = Some (PyBool false)
          ∧ r !! "timestamp" = Some (PyIsoTime (now s'))
          ∧ (∀ key, key ∉ ["attempts"; "is_mock"; "timestamp"] → r !! key = d !! key)
          ∧ sent s' = sent s + S k
          ∧ outline (trace s') = outline (trace s) ++ schedule self 0 (S k).
Proof.
  intros Hlive Hbase Hvalid Hk Hfail Hok Hcheck.
  rewrite translate_valid by done.
  destruct (attempts_succeed_after self text target_language data d k Hlive Hbase
              Hcheck (Z.to_nat (max_retries self)) 0%Z None s)
    as (s' & -> & Hsent & Hout); [lia | lia | lia | done | done |].
  eexists _, s'. split; [reflexivity|]. split_and!.
  - by rewrite lookup_insert_eq.
  - rewrite lookup_insert_ne by done. apply lookup_insert_eq.
  - do 2 rewrite lookup_insert_ne by done. apply lookup_insert_eq.
  - intros key Hkey. set_unfold in Hkey.
    rewrite !lookup_insert_ne; [done | intros <-; apply Hkey; auto..].
  - done.
  - done.
Qed.

Lemma translate_succeeds_after_failures_witness :
  let self := __init__ flaky 3 false in
  ∃ r s', translate self "hello" "es" (fresh 100) = (Return r, s')
          ∧ r !! "attempts" = Some (PyInt 3)
          ∧ r !! "translatedText" = Some (PyStr "hello")
          ∧ sent s' = 3.
Proof.
  intros self.
  destruct (translate_succeeds_after_failures self "hello" "es" (fresh 100)
              (PyDict (<["translatedText" := PyStr "hello"]>
                       (<["attempts" := PyInt 99]> ∅)))
              (<["translatedText" := PyStr "hello"]> (<["attempts" := PyInt 99]> ∅))
              2)
    as (r & s' & Hrun & Hattempts & _ & _ & Hkeys & Hsent & _).
  - reflexivity.
  - done.
  - reflexivity.
  - done.
  - intros i Hi. exists ConnectionError, "connection refused".
    split; [|by right]. cbn. by destruct i as [|[|i]]; [..|lia].
  - reflexivity.
  - reflexivity.
  - exists r, s'. split; [done|]. split; [done|]. split; [|done].
    rewrite Hkeys; [reflexivity|].
    intros Hin. set_unfold in Hin. intuition discriminate.
Defined.

Lemma attempts_exhausted self text target_language :
  use_mock self = false → (0 <= RETRY_DELAY self)%Q →
  (∀ n r, fails_retryably (session self n r)) →
  ∀ todo attempt last_error s,
    (0 ≤ attempt)%Z →
    (attempt + Z.of_nat (S todo) = max_retries self)%Z →
    ∃ e c msg s',
      attempts self text target_language (S todo) attempt last_error s = (Raise e, s')
      ∧ sent s' = sent s + S todo
      ∧ outline (trace s') = outline (trace s) ++ schedule self attempt (S todo)
      ∧ outcome (session self (sent s + todo) (payload_of text target_language))
        = PostRaises c msg
      ∧ exn_context e = Some (Requests c, msg)
      ∧ exn_kind e ∈ [Some Failure.Timeout; Some Failure.ConnectionFailure].
Proof.
  intros Hlive Hbase Hnet.
  induction todo as [|todo IH]; intros attempt last s Hattempt Hmax.
  - destruct (fetch_retryable self text target_language s Hlive (Hnet _ _))
      as (e & c & msg & Hfetch & Hcls & Hout & Hctx & Hkind).
    exists e, c, msg, (posted self text target_language s).
    rewrite (attempts_reraise _ _ _ _ _ _ _ _ _ Hfetch) by (right; lia).
    rewrite sent_posted, outline_posted, Nat.add_0_r.
    split_and!; [done | lia | done..].
  - destruct (fetch_retryable self text target_language s Hlive (Hnet _ _))
      as (e & c & msg & Hfetch & Hcls & _).
    rewrite (attempts_retry _ _ _ _ _ _ _ _ _ Hfetch Hcls) by
      (lia || by apply calculate_retry_delay_nonneg).
    set (s1 := backed_off self attempt (posted self text target_language s)).
    assert (sent s1 = S (sent s)) as Hsent
      by (subst s1; by rewrite sent_backed_off, sent_posted).
    destruct (IH (attempt + 1)%Z (Some e) s1) as
      (e' & c' & msg' & s' & Hrun & Hs' & Houtline & Hout' & Hctx' & Hkind');
      [lia | lia |].
    exists e', c', msg', s'. rewrite Hrun. split_and!; [done | lia | | | done..].
    + rewrite Houtline. subst s1. rewrite outline_backed_off, outline_posted.
      by rewrite <- !app_assoc.
    + rewrite Hsent in Hout'.
      by replace (sent s + S todo) with (S (sent s) + todo) by lia.
Qed.

(** X5: against a network on which every request ends in a timeout or a
    connection error, a live call with [max_retries >= 1] sends exactly
    [max_retries] requests, pauses after each but the last for the delay
    of that attempt, and raises the failure of the last request. *)
Theorem translate_exhausts_retries self text target_language s :
  use_mock self = false → (0 <= RETRY_DELAY self)%Q →
  (1 ≤ max_retries self)%Z →
  (validate_input text target_language).1 = true →
  (∀ n r, fails_retryably (session self n r)) →
  ∃ e c msg s',
    translate self text target_language s = (Raise e, s')
    ∧ sent s' = sent s + Z.to_nat (max_retries self)
    ∧ outline (trace s')
      = outline (trace s) ++ schedule self 0 (Z.to_nat (max_retries self))
    ∧ outcome (session self (sent s + Z.to_nat (max_retries self) - 1)
                 (payload_of text target_language))
      = PostRaises c msg
    ∧ exn_context e = Some (Requests c, msg)
    ∧ exn_kind e ∈ [Some Failure.Timeout; Some Failure.ConnectionFailure].
Proof.
  intros Hlive Hbase Hmax Hvalid Hnet.
  rewrite translate_valid by done.
  destruct (Z.to_nat (max_retries self)) as [|todo] eqn:Htodo; [lia|].
  destruct (attempts_exhausted self text target_language Hlive Hbase Hnet
              todo 0%Z None s) as (e & c & msg & s' & Hrun & Hrest);
    [lia | lia |].
  exists e, c, msg, s'. split; [done|].
  by replace (sent s + S todo - 1) with (sent s + todo) by lia.
Qed.

Lemma translate_exhausts_retries_witness :
  let self := __init__ unreachable 4 false in
  ∃ e c msg s',
    translate self "hello" "es" (fresh 100) = (Raise e, s')
    ∧ sent s' = 4
    ∧ outline (trace s')
      = [Attempt; Wait 1; Attempt; Wait 2; Attempt; Wait 4; Attempt]
    ∧ outcome (unreachable 3 (payload_of "hello" "es")) = PostRaises c msg
    ∧ exn_context e = Some (Requests c, msg)
    ∧ exn_kind e ∈ [Some Failure.Timeout; Some Failure.ConnectionFailure].
Proof.
  intros self.
  apply (translate_exhausts_retries self "hello" "es" (fresh 100));
    [done | done | done | done |].
  intros n r. exists ReadTimeout, ("read timed out, request " +:+ Py.str_of_int (Z.of_nat n)).
  split; [done | by left].
Defined.

(** ** The rate limiter, exactly *)

(** X6: [_rate_limit] waits no longer than needed.  When at least
    [REQUEST_TIMEOUT] has passed since the last stamp it does not sleep and
    only sets the stamp to the current time; otherwise it sleeps once, for
    the missing time, and the stamp it sets is the old stamp plus
    [REQUEST_TIMEOUT]. *)
Theorem rate_limit_waits_exactly self s :
  ((REQUEST_TIMEOUT self <= now s - last_request_time s)%Q →
   _rate_limit self s
   = (Return (), {| last_request_time := now s; now := now s;
                    sent := sent s; trace := trace s |}))
  ∧ ((now s - last_request_time s < REQUEST_TIMEOUT self)%Q →
     ∃ s', _rate_limit self s = (Return (), s')
           ∧ trace s' = trace s
                        ++ [Slept By_rate_limit
                              (REQUEST_TIMEOUT self - (now s - last_request_time s))]
           ∧ (last_request_time s' == last_request_time s + REQUEST_TIMEOUT self)%Q
           ∧ now s' = last_request_time s'
           ∧ sent s' = sent s).
Proof.
  unfold _rate_limit, mbind, M_bind, time_time, get_last_request_time.
  cbn beta iota. split.
  - intros Hlate. destruct (Qlt_le_dec _ _) as [Hearly|_]; [lra | reflexivity].
  - intros Hearly. destruct (Qlt_le_dec _ _) as [_|Hlate]; [|lra].
    unfold time_sleep. destruct (Qlt_le_dec _ 0) as [Hneg|_]; [lra|].
    eexists. split; [reflexivity|]. cbn. split_and!; [done | ring | done..].
Qed.

Lemma rate_limit_waits_exactly_witness :
  let self := __init__ echo 3 false in
  let s := (translate self "hello" "es" (fresh 100)).2 in
  (now s - last_request_time s < REQUEST_TIMEOUT self)%Q
  ∧ ∃ s', _rate_limit self s = (Return (), s')
          ∧ trace s' = trace s
                       ++ [Slept By_rate_limit
                             (REQUEST_TIMEOUT self - (now s - last_request_time s))]
          ∧ (last_request_time s' == last_request_time s + REQUEST_TIMEOUT self)%Q
          ∧ now s' = last_request_time s'
          ∧ sent s' = sent s.
Proof.
  intros self s.
  assert (now s - last_request_time s < REQUEST_TIMEOUT self)%Q as Hearly
    by by vm_compute.
  split; [exact Hearly|].
  exact (proj2 (rate_limit_waits_exactly self s) Hearly).
Defined.

(** ** Normal forms of the input *)

Section more_strings.
  Import Py.

Lemma lower_char_idemp c : lower_char (lower_char c) = lower_char c.
Proof. by destruct c as [[] [] [] [] [] [] [] []]. Qed.

Lemma lower_idemp s : lower (lower s) = lower s.
Proof. induction s as [|c s IH]; [done|]. cbn. by rewrite lower_char_idemp, IH. Qed.

Lemma rstrip_idemp s : rstrip (rstrip s) = rstrip s.
Proof.
  induction s as [|c s IH]; [done|]. cbn.
  destruct (rstrip s) as [|c' r] eqn:E.
  - destruct (isspace c) eqn:Hc; [done|]. cbn. by rewrite Hc.
  - cbn. cbn in IH. by rewrite IH.
Qed.

Lemma lstrip_starts_clean s : starts_clean (lstrip s).
Proof.
  induction s as [|c s IH]; [done|]. cbn.
  by destruct (isspace c) eqn:Hc.
Qed.

Lemma rstrip_starts_clean s : starts_clean s → starts_clean (rstrip s).
Proof.
  destruct s as [|c s]; [done|]. cbn. intros Hc.
  destruct (rstrip s); cbn; by rewrite ?Hc.
Qed.

Lemma lstrip_clean s : starts_clean s → lstrip s = s.
Proof. destruct s as [|c s]; [done|]. cbn. by intros ->. Qed.

Lemma strip_idemp s : strip (strip s) = strip s.
Proof.
  unfold strip.
  rewrite (lstrip_clean (rstrip (lstrip s)))
    by apply rstrip_starts_clean, lstrip_starts_clean.
  apply rstrip_idemp.
Qed.

Lemma strip_lower_normal s : strip (lower (strip (lower s))) = strip (lower s).
Proof. by rewrite !strip_lower, lower_idemp, strip_idemp. Qed.

Lemma length_lower s : String.length (lower s) = String.length s.
Proof. induction s as [|c s IH]; [done|]. cbn. by rewrite IH. Qed.

Lemma lstrip_length s : String.length (lstrip s) ≤ String.length s.
Proof.
  induction s as [|c s IH]; [done|]. cbn. destruct (isspace c); cbn; lia.
Qed.

Lemma lstrip_full s : String.length (lstrip s) = String.length s → lstrip s = s.
Proof.
  destruct s as [|c s]; [done|]. cbn. destruct (isspace c); [|done].
  pose proof (lstrip_length s). lia.
Qed.

Lemma rstrip_length s : String.length (rstrip s) ≤ String.length s.
Proof.
  induction s as [|c s IH]; [done|]. cbn.
  destruct (rstrip s); [destruct (isspace c)|]; cbn in *; lia.
Qed.

Lemma rstrip_full s : String.length (rstrip s) = String.length s → rstrip s = s.
Proof.
  induction s as [|c s IH]; [done|]. cbn.
  destruct (rstrip s) as [|c' r] eqn:E.
  - destruct (isspace c); cbn; [done|].
    intros [= Hlen]. destruct s; [done | discriminate].
  - cbn. intros [= Hlen]. f_equal. by apply IH.
Qed.

Lemma strip_full s : String.length (strip s) = String.length s → strip s = s.
Proof.
  unfold strip. intros Hlen.
  pose proof (lstrip_length s). pose proof (rstrip_length (lstrip s)).
  rewrite (lstrip_full s) by lia.
  apply rstrip_full. rewrite (lstrip_full s) in Hlen by lia. done.
Qed.

Lemma strip_lower_fixed s : strip (lower s) = lower s → strip s = s.
Proof.
  rewrite strip_lower. intros Heq. apply strip_full.
  by rewrite <- (length_lower (strip s)), Heq, length_lower.
Qed.
End more_strings.

(** X7: whether [validate_input] accepts a request does not depend on the
    blanks around the text, nor on the case of the target code or the
    blanks around it: the request and its trimmed, lowercased form get the
    same verdict. *)
Theorem validate_input_normalises text target_language :
  (validate_input text target_language).1
  = (validate_input (Py.strip text) (Py.strip (Py.lower target_language))).1.
Proof.
  apply eq_true_iff_eq. rewrite !validate_input_accepts.
  by rewrite strip_idemp, strip_lower_normal.
Qed.

(** ** The mock path and untrimmed codes *)

Lemma supported_codes_trimmed code :
  is_Some (SUPPORTED_LANGUAGES !! code) → Py.strip code = code.
Proof.
  intros [name Hname].
  assert (map_Forall (λ k _, Py.strip k = k) SUPPORTED_LANGUAGES) as Hall.
  { apply map_Forall_to_list. vm_compute. repeat constructor. }
  exact (Hall code name Hname).
Qed.

Lemma mock_codes_trimmed text code :
  is_Some (mock_translations !! (text, code)) → Py.strip code = code.
Proof.
  intros [t Ht].
  assert (map_Forall (λ k _, Py.strip k.2 = k.2) mock_translations) as Hall.
  { apply map_Forall_to_list. vm_compute. repeat constructor. }
  exact (Hall (text, code) t Ht).
Qed.

(** X8: the mock path does not trim the target code.  For a code with
    blanks around it, even one that [validate_input] accepts, a mock client
    never finds a table entry nor a display name: the translated text is
    the placeholder that names the language as Unknown. *)
Theorem mock_path_ignores_padded_codes self text target_language s :
  use_mock self = true → (1 ≤ max_retries self)%Z →
  (validate_input text target_language).1 = true →
  Py.strip target_language ≠ target_language →
  ∃ r, translate self text target_language s = (Return r, s)
       ∧ r !! "translatedText"
         = Some (PyStr ("[Unknown translation of '" +:+ text +:+ "']")).
Proof.
  intros Hmock Hmax Hvalid Hpadded.
  assert (Py.strip (Py.lower target_language) ≠ Py.lower target_language) as Hlow.
  { intros Heq. by apply Hpadded, strip_lower_fixed. }
  destruct (translate_mock self text target_language s Hmock Hmax Hvalid)
    as (r & Hr & ->).
  destruct (fetch_mock_returns self text target_language s)
    as (r' & Hr' & Htext & _).
  rewrite Hr in Hr'. injection Hr' as <-.
  eexists. split; [done|].
  rewrite lookup_insert_ne by done. rewrite Htext.
  destruct (mock_translations !! (Py.lower text, Py.lower target_language)) eqn:Hhit.
  { exfalso. apply Hlow. eapply mock_codes_trimmed. by rewrite Hhit. }
  destruct (SUPPORTED_LANGUAGES !! Py.lower target_language) eqn:Hname.
  { exfalso. apply Hlow. apply supported_codes_trimmed. by rewrite Hname. }
  done.
Qed.

Lemma mock_path_ignores_padded_codes_witness :
  let self := __init__ echo 3 true in
  (validate_input "hello world" " es ").1 = true
  ∧ ∃ r, translate self "hello world" " es " (fresh 100) = (Return r, fresh 100)
         ∧ r !! "translatedText"
           = Some (PyStr "[Unknown translation of 'hello world']").
Proof.
  intros self. split; [by vm_compute|].
  apply (mock_path_ignores_padded_codes self "hello world" " es " (fresh 100));
    [done | done | by vm_compute | by vm_compute].
Defined.

(** ** The language listing *)

Lemma foldl_ext_in {A B} (f g : A → B → A) (l : list B) (a : A) :
  (∀ a b, b ∈ l → f a b = g a b) → foldl f a l = foldl g a l.
Proof.
  revert a. induction l as [|b l IH]; intros a Hfg; [done|]. cbn.
  rewrite (Hfg a b) by constructor. apply IH.
  intros a' b' Hb'. apply Hfg. by constructor.
Qed.

Lemma listing_drops_last arrow items last :
  Nat.Even (length items) →
  listing arrow (items ++ [last]) = listing arrow items.
Proof.
  intros [m Hm]. unfold listing. cbv zeta.
  rewrite map_app. cbn [map].
  set (languages := map _ items).
  assert (length languages = 2 * m) as Hlen by (subst languages; by rewrite length_map).
  rewrite length_app, Hlen. cbn [length].
  replace ((2 * m + 1) `div` 2) with m by (apply Nat.div_unique with 1; lia).
  replace ((2 * m) `div` 2) with m by (apply Nat.div_unique with 0; lia).
  f_equal. apply foldl_ext_in. intros output i Hi.
  apply elem_of_seq in Hi.
  rewrite (lookup_app_l languages) by lia.
  rewrite (lookup_app_l languages _ (m + i)) by lia.
  destruct (decide (m + i < 2 * m + 1)); [|lia].
  destruct (decide (m + i < 2 * m)); [done|lia].
Qed.

(** X9: [get_available_languages] shows the sorted languages in two columns
    of [len // 2] rows and so leaves out the last entry of a list of odd
    length.  With the 43 entries of [SUPPORTED_LANGUAGES] the listing is the
    one the table would give without ["zh"]: Chinese is never listed,
    although [validate_input] accepts the code. *)
Theorem get_available_languages_omits_last arrow :
  (∀ items last,
     Nat.Even (length items) →
     listing arrow (items ++ [last]) = listing arrow items)
  ∧ get_available_languages arrow
    = listing arrow (sorted_items (delete "zh" SUPPORTED_LANGUAGES))
  ∧ SUPPORTED_LANGUAGES !! "zh" = Some "Chinese"
  ∧ (validate_input "hello" "zh").1 = true.
Proof.
  split_and!.
  - intros items last. apply listing_drops_last.
  - unfold get_available_languages.
    assert (sorted_items SUPPORTED_LANGUAGES
            = sorted_items (delete "zh" SUPPORTED_LANGUAGES) ++ [("zh", "Chinese")])
      as -> by (by vm_compute).
    apply listing_drops_last. exists 21. by vm_compute.
  - by vm_compute.
  - by vm_compute.
Qed.

(** ** The time spent pausing *)

Lemma paused_schedule_exponential self attempt n :
  RETRY_STRATEGY self = EXPONENTIAL → (0 ≤ attempt)%Z →
  (paused (schedule self attempt (S n))
   == RETRY_DELAY self
      * inject_Z (2 ^ (attempt + Z.of_nat n) - 2 ^ attempt))%Q.
Proof.
  intros Hexp. revert attempt. induction n as [|n IH]; intros attempt Hattempt.
  - cbn [schedule paused]. rewrite Z.add_0_r, Z.sub_diag. unfold inject_Z. ring.
  - change (schedule self attempt (S (S n)))
      with (Attempt :: Wait (_calculate_retry_delay self attempt)
                    :: schedule self (attempt + 1) (S n)).
    cbn [paused]. rewrite IH by lia.
    unfold _calculate_retry_delay. rewrite Hexp.
    rewrite <- (Zpower_Qpower 2 attempt Hattempt).
    change (inject_Z 2) with 2%Q.
    rewrite <- Qmult_plus_distr_r, <- inject_Z_plus.
    replace (2 ^ attempt + (2 ^ (attempt + 1 + Z.of_nat n) - 2 ^ (attempt + 1)))%Z
      with (2 ^ (attempt + Z.of_nat (S n)) - 2 ^ attempt)%Z; [reflexivity|].
    replace (attempt + 1 + Z.of_nat n)%Z with (attempt + Z.of_nat (S n))%Z by lia.
    rewrite (Z.pow_add_r 2 attempt 1) by lia. lia.
Qed.

Lemma paused_schedule_linear self attempt n :
  RETRY_STRATEGY self = LINEAR →
  (2 * paused (schedule self attempt (S n))
   == RETRY_DELAY self
      * inject_Z (Z.of_nat n * (2 * attempt + Z.of_nat n + 1)))%Q.
Proof.
  intros Hlin. revert attempt. induction n as [|n IH]; intros attempt.
  - cbn [schedule paused]. rewrite Z.mul_0_l. unfold inject_Z. ring.
  - change (schedule self attempt (S (S n)))
      with (Attempt :: Wait (_calculate_retry_delay self attempt)
                    :: schedule self (attempt + 1) (S n)).
    cbn [paused]. rewrite Qmult_plus_distr_r, IH.
    unfold _calculate_retry_delay. rewrite Hlin.
    rewrite Qmult_assoc, (Qmult_comm 2), <- Qmult_assoc.
    change 2%Q with (inject_Z 2) at 1.
    rewrite <- inject_Z_mult, <- Qmult_plus_distr_r, <- inject_Z_plus.
    replace (2 * (attempt + 1)
             + Z.of_nat n * (2 * (attempt + 1) + Z.of_nat n + 1))%Z
      with (Z.of_nat (S n) * (2 * attempt + Z.of_nat (S n) + 1))%Z by lia.
    reflexivity.
Qed.

Lemma paused_schedule_immediate self attempt n :
  RETRY_STRATEGY self = IMMEDIATE → (paused (schedule self attempt n) == 0)%Q.
Proof.
  intros Himm. revert attempt. induction n as [|[|n] IH]; intros attempt;
    [reflexivity | reflexivity |].
  change (schedule self attempt (S (S n)))
    with (Attempt :: Wait (_calculate_retry_delay self attempt)
                  :: schedule self (attempt + 1) (S n)).
  cbn [paused]. rewrite IH. unfold _calculate_retry_delay. rewrite Himm. ring.
Qed.

(** X10: the time a call spends pausing when all its [n + 1] attempts fail
    retryably: [RETRY_DELAY * (2 ^ n - 1)] under the exponential strategy,
    [RETRY_DELAY * n * (n + 1) / 2] under the linear one, nothing under the
    immediate one. *)
Theorem backoff_total self n :
  (RETRY_STRATEGY self = EXPONENTIAL →
   (paused (schedule self 0 (S n))
    == RETRY_DELAY self * inject_Z (2 ^ Z.of_nat n - 1))%Q)
  ∧ (RETRY_STRATEGY self = LINEAR →
     (2 * paused (schedule self 0 (S n))
      == RETRY_DELAY self * inject_Z (Z.of_nat n * (Z.of_nat n + 1)))%Q)
  ∧ (RETRY_STRATEGY self = IMMEDIATE →
     (paused (schedule self 0 (S n)) == 0)%Q).
Proof.
  split_and!.
  - intros Hexp. by rewrite paused_schedule_exponential.
  - intros Hlin. by rewrite paused_schedule_linear.
  - apply paused_schedule_immediate.
Qed.

Lemma backoff_total_witness :
  let self := __init__ unreachable 3 false in
  RETRY_STRATEGY self = EXPONENTIAL
  ∧ (paused (schedule self 0 3) == 3)%Q.
Proof.
  intros self. split; [done|].
  exact (proj1 (backoff_total self 2) eq_refl).
Defined.

(** ** The limiter during retries *)

(** X11: a retry whose back-off pause is at least [REQUEST_TIMEOUT] is
    never delayed further by the rate limiter: after a request that took no
    negative time and the pause that follows it, [_rate_limit] does not
    sleep and only moves the stamp to the current time.  The default
    client, whose pauses are 1, 2, 4, ... against a spacing of one half, is
    such a case. *)
Theorem retry_passes_rate_limit self text target_language attempt s :
  (0 <= latency (session self (sent s) (payload_of text target_language)))%Q →
  (REQUEST_TIMEOUT self <= _calculate_retry_delay self attempt)%Q →
  let s1 := backed_off self attempt (posted self text target_language s) in
  _rate_limit self s1
  = (Return (), {| last_request_time := now s1; now := now s1;
                   sent := sent s1; trace := trace s1 |}).
Proof.
  intros Hlatency Hdelay s1.
  unfold _rate_limit, mbind, M_bind, time_time, get_last_request_time.
  cbn beta iota.
  destruct (Qlt_le_dec _ _) as [Hearly|_]; [|reflexivity].
  exfalso. subst s1. unfold backed_off, posted in Hearly.
  cbn [now last_request_time] in Hearly.
  rewrite throttle_stamp, throttle_sent in Hearly. lra.
Qed.

Lemma retry_passes_rate_limit_witness :
  let self := __init__ unreachable 3 false in
  let s1 := backed_off self 0 (posted self "hello" "es" (fresh 100)) in
  (REQUEST_TIMEOUT self <= _calculate_retry_delay self 0)%Q
  ∧ _rate_limit self s1
    = (Return (), {| last_request_time := now s1; now := now s1;
                     sent := sent s1; trace := trace s1 |}).
Proof.
  intros self s1. split; [done|].
  apply (retry_passes_rate_limit self "hello" "es" 0 (fresh 100)); done.
Defined.
